(** * KellyBet analytics: the Kelly staking engine and the odds conversions

    A shallow embedding of [utils/helpers.py] (odds conversion library),
    [config.py] (risk thresholds) and [models/kelly_calculator.py]
    (class [KellyCalculator]).

    Modelling conventions.
    - Python [int] values (American odds, counters, [num_bets]) are [Z].
    - Python [float] values (probabilities, bankrolls, decimal odds, stakes)
      are exact rationals [Q]: every arithmetic operation is the exact one,
      without binary64 rounding, overflow, infinities or NaN.  Results are
      compared with [==] (the equality of fractions), never with the
      representation of the fraction.  The theorems are theorems of this
      exact arithmetic.
    - Where a result is truncated to an integer ([decimal_to_american]) the
      rounding of binary64 decides the answer; module [F64] evaluates the two
      odds conversions on IEEE binary64 numbers, as CPython does, and the
      round trip of a quote is stated on it.
    - Where a theorem bounds the magnitude of a quote by 2^53, or asks for a
      modifier, a cap or a probability in [0,1], the bound marks the range in
      which the binary64 numbers of the code agree with the exact model on
      what is stated: a larger quote is not held exactly and can have
      decimal odds of exactly 1, and a larger factor can overflow.
    - A Python exception is a value [Raise e] of the type [result]; calls are
      sequenced with [x <- c ;; k].  In exact arithmetic the only exception
      the modelled code can raise is [ZeroDivisionError].
    - The pseudo random generator [np.random.random] is an oracle
      [rng : nat -> Q] giving the draw of the iteration with that index. *)

From Stdlib Require Import ZArith QArith Qround Qabs Lqa Lia List String Bool.
From Stdlib Require Import Qpower.
From Stdlib Require PrimFloat FloatOps SpecFloat Uint63.
From Stdlib Require DecimalString.
From Stdlib Require Import Permutation Sorted.
Import ListNotations.

Open Scope Q_scope.

(** ** Python values and exceptions *)

Module Py.

Inductive exn : Type :=
| ZeroDivisionError
| OverflowError
| ValueError.

Inductive result (A : Type) : Type :=
| Ok (a : A)
| Raise (e : exn).

Arguments Ok {A} a.
Arguments Raise {A} e.

Definition bind {A B : Type} (c : result A) (k : A -> result B) : result B :=
  match c with
  | Ok a => k a
  | Raise e => Raise e
  end.

(** [x < y] on floats, as a boolean. *)
Definition Qltb (x y : Q) : bool := negb (Qle_bool y x).

(** [x / y]: true division, raising on a zero divisor. *)
Definition div (x y : Q) : result Q :=
  if Qeq_bool y 0 then Raise ZeroDivisionError else Ok (x / y).

(** [int(x)]: truncation towards zero. *)
Definition int (x : Q) : Z :=
  if Qle_bool 0 x then Qfloor x else Qceiling x.

(** [max(0, x)]: the first argument unless the second is strictly larger. *)
Definition max0 (x : Q) : Q :=
  if Qltb 0 x then x else 0.

(** [float(n)] for an integer [n]. *)
Definition float (n : Z) : Q := inject_Z n.

End Py.

Import Py.

Declare Scope py_scope.
Notation "x <- c ;; k" := (bind c (fun x => k))
  (at level 61, c at next level, right associativity) : py_scope.
Open Scope py_scope.

(** ** config.py *)

Module config.

Inductive risk_key : Type := LOW | MEDIUM | HIGH.

(** [RISK_THRESHOLDS = {'LOW': 0.05, 'MEDIUM': 0.15, 'HIGH': 0.15}] *)
Definition RISK_THRESHOLDS (k : risk_key) : Q :=
  match k with
  | LOW => 5 # 100
  | MEDIUM => 15 # 100
  | HIGH => 15 # 100
  end.

End config.

(** ** utils/helpers.py *)

Module helpers.

Definition american_to_decimal (american_odds : Z) : result Q :=
  if (0 <? american_odds)%Z then
    r <- div (float american_odds) 100 ;;
    Ok (r + 1)
  else
    r <- div 100 (float (Z.abs american_odds)) ;;
    Ok (r + 1).

Definition decimal_to_american (decimal_odds : Q) : result Z :=
  if Qle_bool 2 decimal_odds then
    Ok (int ((decimal_odds - 1) * 100))
  else
    r <- div (-(100)) (decimal_odds - 1) ;;
    Ok (int r).

Definition implied_probability (american_odds : Z) : result Q :=
  decimal_odds <- american_to_decimal american_odds ;;
  div 1 decimal_odds.

Definition calculate_edge (win_probability : Q) (american_odds : Z)
  : result Q :=
  implied_prob <- implied_probability american_odds ;;
  Ok (win_probability - implied_prob).

Definition calculate_expected_value
    (win_probability : Q) (american_odds : Z) (stake : Q) : result Q :=
  decimal_odds <- american_to_decimal american_odds ;;
  let win_amount := stake * (decimal_odds - 1) in
  let lose_amount := - stake in
  Ok ((win_probability * win_amount) + ((1 - win_probability) * lose_amount)).

Definition kelly_criterion (win_probability : Q) (american_odds : Z)
  : result Q :=
  decimal_odds <- american_to_decimal american_odds ;;
  let b := decimal_odds - 1 in
  let p := win_probability in
  let q := 1 - p in
  kelly_fraction <- div (b * p - q) b ;;
  Ok (max0 kelly_fraction).

(** The module level [assess_risk] compares with the thresholds as they
    are configured (unit fractions). *)
Definition assess_risk (stake_percentage : Q) : string :=
  if Qltb stake_percentage (config.RISK_THRESHOLDS config.LOW) then
    "LOW RISK"%string
  else if Qltb stake_percentage (config.RISK_THRESHOLDS config.MEDIUM) then
    "MEDIUM RISK"%string
  else
    "HIGH RISK"%string.

End helpers.

(** ** utils/helpers.py, the odds conversions on binary64 numbers *)

Module F64.

(** [float(n)] for an integer; exact below [2^53] in magnitude, which is
    where the conversions are evaluated. *)
Definition of_int (n : Z) : PrimFloat.float :=
  if (n <? 0)%Z then PrimFloat.opp (PrimFloat.of_uint63 (Uint63.of_Z (- n)))
  else PrimFloat.of_uint63 (Uint63.of_Z n).

(** [x / y] on floats: raises on a zero divisor, rounds otherwise.  For
    integers below [2^53] the quotient [m / n] of Python is the rounded
    quotient of the two converted integers. *)
Definition div (x y : PrimFloat.float) : result PrimFloat.float :=
  if PrimFloat.eqb y PrimFloat.zero then Raise ZeroDivisionError
  else Ok (PrimFloat.div x y).

(** [int(x)]: truncation towards zero of a finite float; an infinity raises
    [OverflowError], a NaN [ValueError]. *)
Definition int (x : PrimFloat.float) : result Z :=
  match FloatOps.Prim2SF x with
  | SpecFloat.S754_zero _ => Ok 0%Z
  | SpecFloat.S754_finite s m e =>
      let magnitude :=
        (if 0 <=? e then Z.pos m * 2 ^ e else Z.pos m / 2 ^ (- e))%Z in
      Ok (if s then (- magnitude)%Z else magnitude)
  | SpecFloat.S754_infinity _ => Raise OverflowError
  | SpecFloat.S754_nan => Raise ValueError
  end.

Definition american_to_decimal (american_odds : Z) : result PrimFloat.float :=
  if (0 <? american_odds)%Z then
    r <- div (of_int american_odds) (of_int 100) ;;
    Ok (PrimFloat.add r (of_int 1))
  else
    r <- div (of_int 100) (of_int (Z.abs american_odds)) ;;
    Ok (PrimFloat.add r (of_int 1)).

Definition decimal_to_american (decimal_odds : PrimFloat.float) : result Z :=
  if PrimFloat.leb (of_int 2) decimal_odds then
    int (PrimFloat.mul (PrimFloat.sub decimal_odds (of_int 1)) (of_int 100))
  else
    r <- div (PrimFloat.opp (of_int 100))
             (PrimFloat.sub decimal_odds (of_int 1)) ;;
    int r.

(** The rational number a finite float stands for. *)
Definition to_Q (x : PrimFloat.float) : option Q :=
  match FloatOps.Prim2SF x with
  | SpecFloat.S754_zero _ => Some 0
  | SpecFloat.S754_finite s m e =>
      let magnitude :=
        if (0 <=? e)%Z then inject_Z (Z.pos m * 2 ^ e)
        else Z.pos m # Z.to_pos (2 ^ (- e)) in
      Some (if s then - magnitude else magnitude)
  | _ => None
  end.

End F64.

(** ** models/kelly_calculator.py *)

Module KellyCalculator.

(** The dictionary returned by [calculate_recommended_stake]; one field per
    key. *)
Module Rec.
Record t : Type := mk {
  win_probability : Q;
  implied_probability : Q;
  edge : Q;
  kelly_fraction : Q;
  modified_kelly : Q;
  recommended_stake : Q;
  stake_percentage : Q;
  expected_value : Q;
  risk_assessment : string;
  available_bankroll : Q
}.
End Rec.

(** The dictionary returned by [simulate_kelly_betting]. *)
Module Sim.
Record t : Type := mk {
  initial_bankroll : Q;
  final_bankroll : Q;
  total_bets : Z;
  wins : Z;
  losses : Z;
  win_rate : Q;
  roi : Q;
  max_drawdown : Q;
  bankroll_history : list Q
}.
End Sim.

(** The local variables of the loop of [simulate_kelly_betting]. *)
Record loop_state : Type := mk_loop {
  bankroll_history : list Q;
  current_bankroll : Q;
  wins : Z;
  losses : Z;
  max_drawdown : Q;
  peak_bankroll : Q
}.

Section WithThresholds.

(** [self.risk_thresholds], set from [config.RISK_THRESHOLDS] by
    [__init__]. *)
Variable risk_thresholds : config.risk_key -> Q.

Definition calculate_kelly_fraction
    (win_probability : Q) (american_odds : Z) : result Q :=
  if Qle_bool win_probability 0 || Qle_bool 1 win_probability then
    Ok 0
  else
    decimal_odds <- helpers.american_to_decimal american_odds ;;
    let b := decimal_odds - 1 in
    let p := win_probability in
    let q := 1 - p in
    kelly_fraction <- div (b * p - q) b ;;
    Ok (max0 kelly_fraction).

Definition calculate_expected_value
    (win_probability : Q) (american_odds : Z) (stake : Q) : result Q :=
  decimal_odds <- helpers.american_to_decimal american_odds ;;
  let win_amount := stake * (decimal_odds - 1) in
  let lose_amount := - stake in
  Ok ((win_probability * win_amount)
      + ((1 - win_probability) * lose_amount)).

Definition assess_risk (stake_percentage : Q) : string :=
  if Qltb stake_percentage (risk_thresholds config.LOW * 100) then
    "LOW RISK"%string
  else if Qltb stake_percentage (risk_thresholds config.MEDIUM * 100) then
    "MEDIUM RISK"%string
  else
    "HIGH RISK"%string.

Definition calculate_recommended_stake
    (win_probability : Q) (american_odds : Z) (bankroll : Q)
    (kelly_modifier : Q) (max_bankroll_percent : Q) : result Rec.t :=
  kelly_fraction <- calculate_kelly_fraction win_probability american_odds ;;
  let modified_kelly := kelly_fraction * kelly_modifier in
  let available_bankroll := bankroll * max_bankroll_percent in
  let recommended_stake := available_bankroll * modified_kelly in
  implied_prob <- helpers.implied_probability american_odds ;;
  edge <- helpers.calculate_edge win_probability american_odds ;;
  expected_value <-
    calculate_expected_value win_probability american_odds
                             recommended_stake ;;
  stake_percentage <-
    (if Qltb 0 bankroll then
       r <- div recommended_stake bankroll ;; Ok (r * 100)
     else Ok 0) ;;
  let risk_assessment := assess_risk stake_percentage in
  Ok (Rec.mk (win_probability * 100)
             (implied_prob * 100)
             (edge * 100)
             (kelly_fraction * 100)
             (modified_kelly * 100)
             recommended_stake
             stake_percentage
             expected_value
             risk_assessment
             available_bankroll).

(** One iteration of the [for] loop of [simulate_kelly_betting], up to the
    test of the [break]. *)
Definition simulate_step
    (rng : nat -> Q) (win_probability : Q) (american_odds : Z)
    (kelly_modifier : Q) (bet_num : nat) (st : loop_state)
  : result loop_state :=
  kelly_fraction <- calculate_kelly_fraction win_probability american_odds ;;
  let stake := current_bankroll st * kelly_fraction * kelly_modifier in
  settled <-
    (if Qltb (rng bet_num) win_probability then
       decimal_odds <- helpers.american_to_decimal american_odds ;;
       let payout := stake * decimal_odds in
       Ok (current_bankroll st - stake + payout,
           (wins st + 1)%Z, losses st)
     else
       Ok (current_bankroll st - stake, wins st, (losses st + 1)%Z)) ;;
  let '(current, w, l) := settled in
  let history := bankroll_history st ++ [current] in
  let peak :=
    if Qltb (peak_bankroll st) current then current
    else peak_bankroll st in
  current_drawdown <- div (peak - current) peak ;;
  let drawdown :=
    if Qltb (max_drawdown st) current_drawdown then current_drawdown
    else max_drawdown st in
  Ok (mk_loop history current w l drawdown peak).

(** [for bet_num in range(num_bets)]: [remaining] iterations are left,
    the next one has index [bet_num]; the loop is left early when the
    bankroll is depleted. *)
Fixpoint simulate_loop
    (rng : nat -> Q) (win_probability : Q) (american_odds : Z)
    (kelly_modifier : Q) (remaining : nat) (bet_num : nat)
    (st : loop_state) : result loop_state :=
  match remaining with
  | O => Ok st
  | S remaining' =>
      st' <- simulate_step rng win_probability american_odds
                           kelly_modifier bet_num st ;;
      if Qle_bool (current_bankroll st') 0 then Ok st'
      else simulate_loop rng win_probability american_odds
                         kelly_modifier remaining' (S bet_num) st'
  end.

Definition simulate_kelly_betting
    (rng : nat -> Q) (win_probability : Q) (american_odds : Z)
    (initial_bankroll : Q) (num_bets : Z) (kelly_modifier : Q)
  : result Sim.t :=
  let st0 := mk_loop [initial_bankroll] initial_bankroll 0 0 0
                     initial_bankroll in
  st <- simulate_loop rng win_probability american_odds kelly_modifier
                      (Z.to_nat num_bets) O st0 ;;
  r <- div (current_bankroll st - initial_bankroll) initial_bankroll ;;
  let final_roi := r * 100 in
  win_rate <-
    (if (0 <? wins st + losses st)%Z then
       r <- div (float (wins st)) (float (wins st + losses st)) ;;
       Ok (r * 100)
     else Ok 0) ;;
  Ok (Sim.mk initial_bankroll
             (current_bankroll st)
             (wins st + losses st)%Z
             (wins st)
             (losses st)
             win_rate
             final_roi
             (max_drawdown st * 100)
             (bankroll_history st)).

Definition validate_inputs
    (win_probability : Q) (american_odds : Z) (bankroll : Q)
  : bool * string :=
  if negb (Qltb 0 win_probability && Qltb win_probability 1) then
    (false, "Win probability must be between 0 and 1"%string)
  else if (american_odds =? 0)%Z then
    (false, "Odds cannot be zero"%string)
  else if ((-100 <? american_odds) && (american_odds <? 100))%Z then
    (false,
     "American odds must be less than -100 or greater than +100"%string)
  else if Qle_bool bankroll 0 then
    (false, "Bankroll must be positive"%string)
  else
    (true, "Valid inputs"%string).

End WithThresholds.

End KellyCalculator.

(** The calculator as [__init__] builds it: thresholds from [config]. *)
Module Kelly.
Definition calculate_kelly_fraction := KellyCalculator.calculate_kelly_fraction.
Definition assess_risk :=
  KellyCalculator.assess_risk config.RISK_THRESHOLDS.
Definition calculate_recommended_stake :=
  KellyCalculator.calculate_recommended_stake config.RISK_THRESHOLDS.
Definition simulate_kelly_betting := KellyCalculator.simulate_kelly_betting.
Definition validate_inputs := KellyCalculator.validate_inputs.
End Kelly.

(** ** The formula of the specification

    The full Kelly fraction as the specification words it:
    [f = (b p - q) / b] with [b = decimal_odds - 1] and [q = 1 - p], before
    any floor.  It is compared below with what the code returns. *)
Definition spec_kelly (decimal_odds p : Q) : Q :=
  let b := decimal_odds - 1 in
  let q := 1 - p in
  (b * p - q) / b.

(** ** The invariant of the simulation loop

    What holds of the local variables of [simulate_kelly_betting] before and
    after every iteration: the bankroll and every recorded bankroll are not
    negative, the peak is positive, the counters are not negative. *)
Definition loop_invariant (st : KellyCalculator.loop_state) : Prop :=
  0 <= KellyCalculator.current_bankroll st /\
  0 < KellyCalculator.peak_bankroll st /\
  Forall (fun b => 0 <= b) (KellyCalculator.bankroll_history st) /\
  (0 <= KellyCalculator.wins st)%Z /\
  (0 <= KellyCalculator.losses st)%Z.

(** ** More of Python: [min], [max], slices, [str] of an integer *)

Module PyMore.

(** [min(x, y)]: the first argument unless the second is strictly smaller. *)
Definition min2 (x y : Q) : Q := if Qltb y x then y else x.

(** [max(x, y)]: the first argument unless the second is strictly larger. *)
Definition max2 (x y : Q) : Q := if Qltb x y then y else x.

(** [s[:stop]]: a negative [stop] counts from the end, and both ends are
    clamped to the string. *)
Definition slice_to (s : string) (stop : Z) : string :=
  let n := Z.of_nat (String.length s) in
  let k := if (stop <? 0)%Z then Z.max 0 (n + stop) else Z.min n stop in
  substring 0 (Z.to_nat k) s.

(** [str(n)] for an integer. *)
Definition str (n : Z) : string :=
  DecimalString.NilZero.string_of_int (Z.to_int n).

(** The truth value of an optional string: [None] and the empty string are
    false. *)
Definition truthy (s : option string) : bool :=
  match s with
  | Some (String _ _) => true
  | _ => false
  end.

Definition newline : string := String (Ascii.ascii_of_nat 10) EmptyString.

End PyMore.

(** ** models/probability_models.py *)

Module probability_models.

(** The dictionary returned by [calculate_kelly_stake]. *)
Module Stake.
Record t : Type := mk {
  stake : Q;
  stake_percentage : Q;
  expected_value : Q;
  edge_percentage : Q;
  kelly_fraction : Q
}.
End Stake.

Definition calculate_kelly_stake
    (bankroll win_prob : Q) (odds : Z) (kelly_fraction max_bankroll_pct : Q)
  : result Stake.t :=
  decimal_odds <-
    (if (0 <? odds)%Z then
       r <- div (float odds) 100 ;; Ok (r + 1)
     else
       r <- div 100 (float (Z.abs odds)) ;; Ok (r + 1)) ;;
  let b := decimal_odds - 1 in
  let p := win_prob in
  let q := 1 - p in
  if Qltb q (p * b) then
    kelly_stake <- div (p * b - q) b ;;
    let kelly_stake := kelly_stake * kelly_fraction in
    let max_stake := bankroll * max_bankroll_pct in
    let recommended_stake := PyMore.min2 (kelly_stake * bankroll) max_stake in
    let expected_value := (p * b - q) * 100 in
    implied <- div 1 decimal_odds ;;
    let edge := p - implied in
    fraction <- div recommended_stake bankroll ;;
    Ok (Stake.mk recommended_stake (fraction * 100) expected_value
                 (edge * 100) kelly_stake)
  else
    Ok (Stake.mk 0 0 0 0 0).

End probability_models.

(** ** models/kelly_calculator.py, the other methods

    The methods are those of the instance [Kelly] that [__init__] builds.
    The format specifications [:.1f] and [:.2f] of the f-strings are
    parameters [fmt1] and [fmt2]. *)

Module KellyMethods.

Module Opt.
Record t : Type := mk {
  base_kelly : Q;
  optimized_kelly : Q;
  multiplier : Q;
  risk_tolerance : string;
  results : KellyCalculator.Rec.t
}.
End Opt.

(** [risk_multipliers = {'low': 0.25, 'medium': 0.5, 'high': 0.75}] *)
Definition risk_multipliers (k : string) : option Q :=
  if String.eqb k "low" then Some (25 # 100)
  else if String.eqb k "medium" then Some (5 # 10)
  else if String.eqb k "high" then Some (75 # 100)
  else None.

Definition optimize_kelly_fraction
    (win_probability : Q) (american_odds : Z) (bankroll : Q)
    (risk_tolerance : string) : result Opt.t :=
  base_kelly <- Kelly.calculate_kelly_fraction win_probability american_odds ;;
  let multiplier :=
    match risk_multipliers risk_tolerance with
    | Some m => m
    | None => 5 # 10
    end in
  let optimized_kelly := base_kelly * multiplier in
  results <- Kelly.calculate_recommended_stake
               win_probability american_odds bankroll multiplier 1 ;;
  Ok (Opt.mk (base_kelly * 100) (optimized_kelly * 100) multiplier
             risk_tolerance results).

(** A scenario dictionary that carries the two keys the loop reads with
    [scenario[...]]; the key [name] is optional. *)
Record scenario : Type := mk_scenario {
  win_probability : Q;
  odds : Z;
  name : option string
}.

(** A recommendation: the record of [calculate_recommended_stake] with the
    two keys the loop adds. *)
Record outcome : Type := mk_outcome {
  results : KellyCalculator.Rec.t;
  scenario_id : Z;
  scenario_name : string
}.

(** The loop [for i, scenario in enumerate(scenarios)], from index [i]. *)
Fixpoint recommend_from (i : Z) (scenarios : list scenario) (bankroll : Q)
  : result (list outcome) :=
  match scenarios with
  | [] => Ok []
  | s :: rest =>
      r <- Kelly.calculate_recommended_stake
             (win_probability s) (odds s) bankroll 1 1 ;;
      let label :=
        match name s with
        | Some n => n
        | None => ("Scenario " ++ PyMore.str (i + 1))%string
        end in
      tail <- recommend_from (i + 1) rest bankroll ;;
      Ok (mk_outcome r i label :: tail)
  end.

(** [list.sort(key=..., reverse=True)] is a stable sort into descending
    order of the key: of two entries with equal keys the one that came first
    stays first. *)
Fixpoint insert_desc (x : outcome) (l : list outcome) : list outcome :=
  match l with
  | [] => [x]
  | y :: l' =>
      if Qltb (KellyCalculator.Rec.expected_value (results x))
              (KellyCalculator.Rec.expected_value (results y))
      then y :: insert_desc x l'
      else x :: y :: l'
  end.

Definition sort_desc (l : list outcome) : list outcome :=
  fold_right insert_desc [] l.

Definition calculate_multiple_outcomes
    (scenarios : list scenario) (bankroll : Q) : result (list outcome) :=
  recommendations <- recommend_from 0 scenarios bankroll ;;
  Ok (sort_desc recommendations).

Section Summary.

Variables fmt1 fmt2 : Q -> string.

Definition generate_summary
    (results : KellyCalculator.Rec.t) (bet_type : string)
    (team1 team2 : option string) : string :=
  let stake := KellyCalculator.Rec.recommended_stake results in
  let bankroll_percent := KellyCalculator.Rec.stake_percentage results in
  let win_prob := KellyCalculator.Rec.win_probability results in
  let edge := KellyCalculator.Rec.edge results in
  let risk := KellyCalculator.Rec.risk_assessment results in
  if Qle_bool (KellyCalculator.Rec.edge results) 0 then
    ("NO BET RECOMMENDED: No positive expected value detected. Model shows "
       ++ fmt1 edge ++ "% edge.")%string
  else
    let summary :=
      ("Recommended bet: " ++ fmt1 bankroll_percent ++ "% of bankroll ($"
         ++ fmt2 stake ++ ") on " ++ bet_type)%string in
    let summary :=
      if PyMore.truthy team1 && PyMore.truthy team2 then
        match team1, team2 with
        | Some t1, Some t2 =>
            (summary ++ " for " ++ t1 ++ " vs " ++ t2 ++ " match")%string
        | _, _ => summary
        end
      else summary in
    let summary :=
      (summary ++ "." ++ PyMore.newline ++ PyMore.newline
         ++ "Key factors:" ++ PyMore.newline)%string in
    let summary :=
      (summary ++ "• Win probability: " ++ fmt1 win_prob ++ "%"
         ++ PyMore.newline)%string in
    let summary :=
      (summary ++ "• Betting edge: " ++ fmt1 edge ++ "%"
         ++ PyMore.newline)%string in
    let summary :=
      (summary ++ "• Expected value: $"
         ++ fmt2 (KellyCalculator.Rec.expected_value results)
         ++ PyMore.newline)%string in
    let summary :=
      (summary ++ "• Risk level: " ++ risk ++ PyMore.newline
         ++ PyMore.newline)%string in
    if String.eqb risk "HIGH RISK" then
      (summary ++ "⚠️ HIGH RISK: Consider reducing to quarter Kelly for more conservative approach.")%string
    else if String.eqb risk "MEDIUM RISK" then
      (summary ++ "⚡ MEDIUM RISK: Good value bet with moderate risk.")%string
    else
      (summary ++ "✅ LOW RISK: Conservative bet with positive expected value.")%string.

End Summary.

End KellyMethods.

(** ** utils/helpers.py, the session state

    [st.session_state] after [initialize_session_state]: the attributes the
    helpers read and write.  A recorded bet is the dictionary of the caller
    (any type [payload]) with the two keys [record_bet] sets. *)

Module session.

Section WithPayload.

Variables (payload time : Type).

Record bet : Type := mk_bet {
  bet_data : payload;
  timestamp : time;
  bet_id : Z
}.

Record session_state : Type := mk_state {
  bankroll : Q;
  initial_bankroll : Q;
  bet_history : list bet;
  total_bets : Z;
  total_wins : Z;
  total_losses : Z
}.

Definition set_bankroll (b : Q) (st : session_state) : session_state :=
  mk_state b (initial_bankroll st) (bet_history st) (total_bets st)
           (total_wins st) (total_losses st).

Definition update_bankroll
    (amount : Q) (operation : string) (st : session_state) : session_state :=
  let st :=
    if String.eqb operation "add" then
      set_bankroll (bankroll st + amount) st
    else if String.eqb operation "subtract" then
      set_bankroll (bankroll st - amount) st
    else if String.eqb operation "set" then
      set_bankroll amount st
    else st in
  set_bankroll (max0 (bankroll st)) st.

(** [record_bet]: [now] is the value of [datetime.now()].  The database and
    the error message on the page are outside the session state; a failure to
    save is caught and changes nothing here. *)
Definition record_bet
    (now : time) (data : payload) (st : session_state) : session_state :=
  let recorded :=
    mk_bet data now (Z.of_nat (List.length (bet_history st)) + 1) in
  mk_state (bankroll st) (initial_bankroll st)
           (bet_history st ++ [recorded]) (total_bets st + 1)
           (total_wins st) (total_losses st).

Definition calculate_roi (st : session_state) : result Q :=
  let current_bankroll := bankroll st in
  let initial_bankroll := initial_bankroll st in
  if Qeq_bool initial_bankroll 0 then Ok 0
  else
    r <- div (current_bankroll - initial_bankroll) initial_bankroll ;;
    Ok (r * 100).

Definition get_profit_loss (st : session_state) : Q :=
  bankroll st - initial_bankroll st.

End WithPayload.

Arguments mk_bet {payload time}.
Arguments bet_data {payload time}.
Arguments timestamp {payload time}.
Arguments bet_id {payload time}.
Arguments mk_state {payload time}.
Arguments bankroll {payload time}.
Arguments initial_bankroll {payload time}.
Arguments bet_history {payload time}.
Arguments total_bets {payload time}.
Arguments total_wins {payload time}.
Arguments total_losses {payload time}.
Arguments set_bankroll {payload time}.
Arguments update_bankroll {payload time}.
Arguments record_bet {payload time}.
Arguments calculate_roi {payload time}.
Arguments get_profit_loss {payload time}.

End session.

(** ** utils/helpers.py, the cache

    [st.session_state.cache] is absent until the first [cache_data]; then it
    is a dictionary from keys to items.  A moment is a number of
    microseconds; [now] is the value of [datetime.now()] at the call. *)

Module cache.

Section WithData.

Variable A : Type.

Record item : Type := mk_item {
  data : A;
  expiration : Z
}.

Definition dict : Type := string -> option item.

Definition session_cache : Type := option dict.

(** [timedelta(hours=h)] for a whole number of hours. *)
Definition hours (h : Z) : Z := (h * 3600000000)%Z.

Definition cache_data
    (now : Z) (key : string) (value : A) (duration_hours : Z)
    (c : session_cache) : session_cache :=
  let d := match c with
           | None => fun _ => None
           | Some d => d
           end in
  let expiration := (now + hours duration_hours)%Z in
  Some (fun k => if String.eqb k key then Some (mk_item value expiration)
                 else d k).

Definition get_cached_data
    (now : Z) (key : string) (c : session_cache) : option A * session_cache :=
  match c with
  | None => (None, c)
  | Some d =>
      match d key with
      | None => (None, c)
      | Some cached_item =>
          if (expiration cached_item <? now)%Z then
            (None, Some (fun k => if String.eqb k key then None else d k))
          else
            (Some (data cached_item), c)
      end
  end.

End WithData.

Arguments mk_item {A}.
Arguments data {A}.
Arguments expiration {A}.
Arguments cache_data {A}.
Arguments get_cached_data {A}.

End cache.

(** ** utils/helpers.py, text and input validation

    The built-in conversions [int(...)] and [float(...)] of an input and the
    formatting of an amount are parameters. *)

Module inputs.

(** [MIN_BANKROLL = 100.00] of config.py *)
Definition MIN_BANKROLL : Q := 100.

Definition truncate_text (text : string) (max_length : Z) : string :=
  if (Z.of_nat (String.length text) <=? max_length)%Z then text
  else (PyMore.slice_to text (max_length - 3) ++ "...")%string.

Definition safe_divide (numerator denominator default : Q) : Q :=
  if Qeq_bool denominator 0 then default
  else numerator / denominator.

Section Validation.

Variable input : Type.
Variable int_of : input -> result Z.
Variable float_of : input -> result Q.
Variable format_currency : Q -> string.

Definition validate_odds_input (odds_input : input)
  : result (bool * (Z + string)) :=
  match int_of odds_input with
  | Ok odds =>
      if (odds =? 0)%Z then
        Ok (false, inr "Odds cannot be zero"%string)
      else if ((-100 <? odds) && (odds <? 100) && negb (odds =? 0))%Z then
        Ok (false,
            inr "American odds must be less than -100 or greater than +100"%string)
      else
        Ok (true, inl odds)
  | Raise ValueError => Ok (false, inr "Please enter a valid integer"%string)
  | Raise e => Raise e
  end.

Definition validate_bankroll_update (new_bankroll : input)
  : result (bool * (Q + string)) :=
  match float_of new_bankroll with
  | Ok amount =>
      if Qltb amount MIN_BANKROLL then
        Ok (false,
            inr ("Minimum bankroll is " ++ format_currency MIN_BANKROLL)%string)
      else if Qltb 1000000 amount then
        Ok (false, inr "Maximum bankroll is $1,000,000"%string)
      else
        Ok (true, inl amount)
  | Raise ValueError => Ok (false, inr "Please enter a valid number"%string)
  | Raise e => Raise e
  end.

End Validation.

End inputs.

(** ** data/odds_data.py, the best quote of a match

    [match_data['bookmakers']] is a dictionary in insertion order, from the
    name of a bookmaker to its quotes; a market the bookmaker does not quote
    is a missing key. *)

Module odds_data.

Inductive market : Type := home_win | draw | away_win.

Record best : Type := mk_best {
  odds : option Z;
  bookmaker : option string
}.

Definition quotes : Type := market -> option Z.

Definition best_odds : Type := market -> best.

Definition market_eqb (a b : market) : bool :=
  match a, b with
  | home_win, home_win | draw, draw | away_win, away_win => true
  | _, _ => false
  end.

(** [best_odds[market] = value] *)
Definition set_market (m : market) (value : best) (b : best_odds) : best_odds :=
  fun m' => if market_eqb m' m then value else b m'.

(** The body of [for market in ['home_win', 'draw', 'away_win']]. *)
Definition consider
    (name : string) (quoted : quotes) (m : market) (b : best_odds)
  : best_odds :=
  match quoted m with
  | None => b
  | Some current_odds =>
      match odds (b m) with
      | None => set_market m (mk_best (Some current_odds) (Some name)) b
      | Some best_odds_val =>
          let current_better :=
            if ((0 <? current_odds) && (0 <? best_odds_val))%Z then
              (best_odds_val <? current_odds)%Z
            else if ((current_odds <? 0) && (best_odds_val <? 0))%Z then
              (best_odds_val <? current_odds)%Z
            else if ((0 <? current_odds) && (best_odds_val <? 0))%Z then
              true
            else false in
          if current_better then
            set_market m (mk_best (Some current_odds) (Some name)) b
          else b
      end
  end.

Definition get_best_odds (bookmakers : list (string * quotes)) : best_odds :=
  fold_left
    (fun b entry =>
       let '(name, quoted) := entry in
       consider name quoted away_win
         (consider name quoted draw (consider name quoted home_win b)))
    bookmakers
    (fun _ => mk_best None None).

End odds_data.

(** ** pages/f1/simulation.py, the adjustments of a probability

    [adjustment] is the value [random.uniform(-variance, variance)]
    returns. *)

Module f1_simulation.

Definition adjust_rain_probability
    (uniform : Q -> Q -> Q) (base_probability weather_impact : Q) : Q :=
  let variance := weather_impact / 2 in
  let adjustment := uniform (- variance) variance in
  PyMore.max2 (1 # 10) (PyMore.min2 (9 # 10) (base_probability + adjustment)).

Definition adjust_market_probability
    (base_probability : Q) (market_type : string) : Q :=
  if String.eqb market_type "Podium" then
    PyMore.min2 (9 # 10) (base_probability * (13 # 10))
  else if String.eqb market_type "Points Finish" then
    PyMore.min2 (9 # 10) (base_probability * (15 # 10))
  else base_probability.

End f1_simulation.

(** ** The round trip of a quote on binary64 numbers, and its check *)

Definition f64_round_trip (odds : Z) : result Z :=
  d <- F64.american_to_decimal odds ;; F64.decimal_to_american d.

(** The quote comes back, or comes back one unit nearer to zero, or is -100
    and comes back as +100. *)
Definition f64_near (odds : Z) : bool :=
  match f64_round_trip odds with
  | Ok r =>
      ((r =? odds) || (r =? odds - Z.sgn odds)
       || ((odds =? -100) && (r =? 100)))%Z
  | Raise _ => false
  end.

Definition f64_near_range (lo : Z) (n : nat) : bool :=
  forallb (fun k => f64_near (lo + Z.of_nat k)) (seq 0 n).

(** ** The simulated path in closed form

    A win multiplies the bankroll by [growth_on_win], a loss by
    [shrink_on_loss]; [count_wins] counts the winning draws among the [n]
    draws from index [start]. *)

Definition growth_on_win (f m d : Q) : Q := 1 + f * m * (d - 1).

Definition shrink_on_loss (f m : Q) : Q := 1 - f * m.

Fixpoint count_wins (rng : nat -> Q) (p : Q) (start n : nat) : Z :=
  match n with
  | O => 0%Z
  | S n' =>
      ((if Qltb (rng start) p then 1 else 0)
       + count_wins rng p (S start) n')%Z
  end.

(** A bankroll reachable from [B0] by wins and losses. *)
Definition reachable (B0 f m d b : Q) : Prop :=
  exists w l : Z,
    (0 <= w)%Z /\ (0 <= l)%Z /\
    b == B0 * growth_on_win f m d ^ w * shrink_on_loss f m ^ l.

(** The invariant of the loop for a Kelly fraction below 1 and a modifier
    of at most 1: the bankroll stays positive and below its peak, the largest
    drawdown stays in [0,1), and the bankroll is the starting one times one
    factor per win and per loss. *)
Definition loop_invariant_strict
    (B0 f m d : Q) (st : KellyCalculator.loop_state) : Prop :=
  0 < KellyCalculator.current_bankroll st /\
  KellyCalculator.current_bankroll st <= KellyCalculator.peak_bankroll st /\
  0 <= KellyCalculator.max_drawdown st /\
  KellyCalculator.max_drawdown st < 1 /\
  Forall (fun b => 0 < b /\ reachable B0 f m d b)
         (KellyCalculator.bankroll_history st) /\
  last (KellyCalculator.bankroll_history st) 0
    = KellyCalculator.current_bankroll st /\
  (0 <= KellyCalculator.wins st)%Z /\
  (0 <= KellyCalculator.losses st)%Z /\
  KellyCalculator.current_bankroll st
    == B0 * growth_on_win f m d ^ KellyCalculator.wins st
       * shrink_on_loss f m ^ KellyCalculator.losses st.

(** ** What [get_best_odds] has seen

    [quoted bookmakers m name o]: the bookmaker [name] of the list quotes [o]
    on the market [m].  [best_invariant seen b] relates the best quotes [b]
    to the bookmakers seen so far: an empty entry means nobody quoted the
    market; a filled entry is a quote of the bookmaker it names, and it is the
    largest quote seen when no quote of the market is 0. *)

Definition quoted
    (bookmakers : list (string * odds_data.quotes)) (m : odds_data.market)
    (name : string) (o : Z) : Prop :=
  exists q, In (name, q) bookmakers /\ q m = Some o.

Definition best_invariant
    (seen : list (string * odds_data.quotes)) (b : odds_data.best_odds)
  : Prop :=
  forall m,
    match odds_data.odds (b m) with
    | None =>
        odds_data.bookmaker (b m) = None /\
        forall name o, ~ quoted seen m name o
    | Some o =>
        (exists name,
           odds_data.bookmaker (b m) = Some name /\ quoted seen m name o) /\
        ((forall name' o', quoted seen m name' o' -> o' <> 0%Z) ->
         forall name' o', quoted seen m name' o' -> (o' <= o)%Z)
    end.

(** * Properties *)

(** Splits a conjunction into its parts, and nothing else. *)
Ltac conjs := repeat match goal with |- _ /\ _ => split end.

(** ** Comparisons, division and truncation *)

Lemma Qltb_lt (x y : Q) : Qltb x y = true <-> x < y.
Proof.
  unfold Qltb. rewrite negb_true_iff.
  split; intro H.
  - apply Qnot_le_lt. intro Hle.
    apply Qle_bool_iff in Hle. congruence.
  - destruct (Qle_bool y x) eqn:E; [|reflexivity].
    apply Qle_bool_iff in E. exfalso. apply (Qlt_not_le _ _ H E).
Qed.

Lemma Qltb_ge (x y : Q) : Qltb x y = false <-> y <= x.
Proof.
  unfold Qltb. rewrite negb_false_iff. apply Qle_bool_iff.
Qed.

Lemma Qle_bool_gt (x y : Q) : Qle_bool x y = false <-> y < x.
Proof.
  rewrite <- Qltb_lt. unfold Qltb.
  destruct (Qle_bool x y); simpl; intuition congruence.
Qed.

Lemma div_Ok (x y : Q) : ~ y == 0 -> div x y = Ok (x / y).
Proof.
  intro H. unfold div.
  destruct (Qeq_bool y 0) eqn:E; [|reflexivity].
  apply Qeq_bool_iff in E. contradiction.
Qed.

Lemma div_zero (x y : Q) : y == 0 -> div x y = Raise ZeroDivisionError.
Proof.
  intro H. unfold div.
  apply Qeq_bool_iff in H. now rewrite H.
Qed.

Lemma max0_pos (x : Q) : 0 < x -> max0 x = x.
Proof. intro H. unfold max0. apply Qltb_lt in H. now rewrite H. Qed.

Lemma max0_nonpos (x : Q) : x <= 0 -> max0 x = 0.
Proof. intro H. unfold max0. apply Qltb_ge in H. now rewrite H. Qed.

Lemma max0_nonneg (x : Q) : 0 <= max0 x.
Proof.
  unfold max0. destruct (Qltb 0 x) eqn:E.
  - apply Qltb_lt in E. lra.
  - lra.
Qed.

Lemma max0_ge (x : Q) : x <= max0 x.
Proof.
  unfold max0. destruct (Qltb 0 x) eqn:E.
  - lra.
  - apply Qltb_ge in E. lra.
Qed.

Lemma max0_le (x y : Q) : 0 <= y -> x <= y -> max0 x <= y.
Proof.
  intros Hy Hx. unfold max0. destruct (Qltb 0 x); assumption.
Qed.

Lemma float_pos (n : Z) : (0 < n)%Z -> 0 < float n.
Proof.
  intro H. unfold float, Qlt. simpl. lia.
Qed.

(** ** The odds conversions *)

Lemma american_to_decimal_pos (odds : Z) :
  (0 < odds)%Z ->
  helpers.american_to_decimal odds = Ok (float odds / 100 + 1).
Proof.
  intro H. unfold helpers.american_to_decimal.
  apply Z.ltb_lt in H. rewrite H. reflexivity.
Qed.

Lemma american_to_decimal_neg (odds : Z) :
  (odds < 0)%Z ->
  helpers.american_to_decimal odds = Ok (100 / float (Z.abs odds) + 1).
Proof.
  intro H. unfold helpers.american_to_decimal.
  assert (E : (0 <? odds)%Z = false) by (apply Z.ltb_ge; lia).
  rewrite E.
  rewrite div_Ok; [reflexivity|].
  assert (0 < float (Z.abs odds)) by (apply float_pos; lia). lra.
Qed.

Lemma american_to_decimal_zero :
  helpers.american_to_decimal 0 = Raise ZeroDivisionError.
Proof. reflexivity. Qed.

(** For every nonzero quote the decimal odds exist and exceed 1: the net
    odds [b] are positive. *)
Lemma american_to_decimal_gt1 (odds : Z) :
  odds <> 0%Z ->
  exists d, helpers.american_to_decimal odds = Ok d /\ 1 < d.
Proof.
  intro H.
  destruct (Z.lt_trichotomy odds 0) as [Hn | [Hz | Hp]]; [| contradiction |].
  - exists (100 / float (Z.abs odds) + 1). split.
    + now apply american_to_decimal_neg.
    + assert (Hd : 0 < float (Z.abs odds)) by (apply float_pos; lia).
      assert (0 < 100 / float (Z.abs odds)).
      { apply Qlt_shift_div_l; [assumption | lra]. }
      lra.
  - exists (float odds / 100 + 1). split.
    + now apply american_to_decimal_pos.
    + assert (Hd : 0 < float odds) by (apply float_pos; lia).
      assert (0 < float odds / 100).
      { apply Qlt_shift_div_l; lra. }
      lra.
Qed.

(** ** The Kelly fraction *)

Section KellyFraction.

Variables (p : Q) (odds : Z) (d : Q).
Hypothesis Hd : helpers.american_to_decimal odds = Ok d.
Hypothesis Hb : 1 < d.

Lemma kelly_fraction_out_of_range :
  p <= 0 \/ 1 <= p ->
  KellyCalculator.calculate_kelly_fraction p odds = Ok 0.
Proof.
  intro H. unfold KellyCalculator.calculate_kelly_fraction.
  assert (E : Qle_bool p 0 || Qle_bool 1 p = true).
  { apply orb_true_iff. destruct H as [H | H];
      [left | right]; now apply Qle_bool_iff. }
  now rewrite E.
Qed.

Lemma kelly_fraction_in_range :
  0 < p -> p < 1 ->
  KellyCalculator.calculate_kelly_fraction p odds = Ok (max0 (spec_kelly d p)).
Proof.
  intros H0 H1. unfold KellyCalculator.calculate_kelly_fraction.
  assert (E : Qle_bool p 0 || Qle_bool 1 p = false).
  { apply orb_false_iff. split; now apply Qle_bool_gt. }
  rewrite E, Hd. simpl.
  rewrite div_Ok; [reflexivity | lra].
Qed.

Lemma kelly_criterion_eq :
  helpers.kelly_criterion p odds = Ok (max0 (spec_kelly d p)).
Proof.
  unfold helpers.kelly_criterion. rewrite Hd. simpl.
  rewrite div_Ok; [reflexivity | lra].
Qed.

Lemma spec_kelly_lt_p : p < 1 -> spec_kelly d p < p.
Proof.
  intro H1. unfold spec_kelly.
  apply Qlt_shift_div_r; [lra|].
  assert (E : p * (d - 1) == (d - 1) * p) by ring.
  rewrite E. lra.
Qed.

End KellyFraction.

(** What [calculate_kelly_fraction] returns for a nonzero quote: a value
    between 0 and the larger of 0 and the formula of the specification. *)
Lemma kelly_fraction_returns (p : Q) (odds : Z) :
  odds <> 0%Z ->
  exists d f,
    helpers.american_to_decimal odds = Ok d /\ 1 < d /\
    KellyCalculator.calculate_kelly_fraction p odds = Ok f /\
    0 <= f /\ f < 1 /\ (0 < p -> f <= p) /\
    (p <= 0 \/ 1 <= p -> f = 0) /\
    (0 < p -> p < 1 -> f = max0 (spec_kelly d p)).
Proof.
  intro Hodds.
  destruct (american_to_decimal_gt1 odds Hodds) as (d & Hd & Hb).
  exists d.
  destruct (Qlt_le_dec 0 p) as [H0 | H0];
    [destruct (Qlt_le_dec p 1) as [H1 | H1] |].
  - exists (max0 (spec_kelly d p)).
    pose proof (spec_kelly_lt_p p d Hb H1) as Hlt.
    pose proof (max0_nonneg (spec_kelly d p)) as Hge.
    assert (Hle : max0 (spec_kelly d p) <= p) by (apply max0_le; lra).
    conjs; try assumption; try (intros; reflexivity).
    + now apply kelly_fraction_in_range.
    + lra.
    + intros _. exact Hle.
    + intros [H | H]; lra.
  - exists 0. conjs; try assumption; try lra; try (intros; reflexivity).
    apply kelly_fraction_out_of_range. now right.
  - exists 0. conjs; try assumption; try lra; try (intros; reflexivity).
    apply kelly_fraction_out_of_range. now left.
Qed.

(** ** The recommendation record *)

(** The record [calculate_recommended_stake] builds, field by field, once the
    decimal odds [d] and the Kelly fraction [f] are known. *)
Lemma recommended_stake_eq
    (thr : config.risk_key -> Q) (p : Q) (odds : Z) (bankroll m c d f : Q) :
  helpers.american_to_decimal odds = Ok d ->
  1 < d ->
  KellyCalculator.calculate_kelly_fraction p odds = Ok f ->
  let stake := bankroll * c * (f * m) in
  let pct := if Qltb 0 bankroll then stake / bankroll * 100 else 0 in
  KellyCalculator.calculate_recommended_stake thr p odds bankroll m c =
  Ok (KellyCalculator.Rec.mk
        (p * 100) (1 / d * 100) ((p - 1 / d) * 100) (f * 100) (f * m * 100)
        stake pct
        (p * (stake * (d - 1)) + (1 - p) * (- stake))
        (KellyCalculator.assess_risk thr pct)
        (bankroll * c)).
Proof.
  intros Hd Hb Hf stake pct.
  unfold KellyCalculator.calculate_recommended_stake.
  rewrite Hf. simpl.
  unfold helpers.calculate_edge, helpers.implied_probability,
    KellyCalculator.calculate_expected_value.
  rewrite Hd. simpl.
  rewrite (div_Ok 1 d) by lra. simpl.
  subst pct stake.
  destruct (Qltb 0 bankroll) eqn:E.
  - apply Qltb_lt in E.
    rewrite div_Ok by lra. reflexivity.
  - reflexivity.
Qed.

(** C2: for American odds of magnitude at least 100,
    [calculate_kelly_fraction] returns the formula [(b p - q) / b] with
    [b = decimal_odds - 1] and [q = 1 - p]; it returns 0 when [p <= 0], when
    [p >= 1] and when the value of the formula is negative; a value of the
    formula that is not negative is returned as it is, whatever its size (no
    cap at 1). *)
Theorem C2_kelly_fraction_formula (p : Q) (odds : Z) :
  (100 <= Z.abs odds)%Z ->
  exists d f,
    helpers.american_to_decimal odds = Ok d /\ 0 < d - 1 /\
    KellyCalculator.calculate_kelly_fraction p odds = Ok f /\
    (p <= 0 \/ 1 <= p -> f == 0) /\
    (0 < p -> p < 1 -> spec_kelly d p < 0 -> f == 0) /\
    (0 < p -> p < 1 -> 0 <= spec_kelly d p -> f == spec_kelly d p).
Proof.
  intro Hodds.
  assert (Hnz : odds <> 0%Z) by lia.
  destruct (kelly_fraction_returns p odds Hnz)
    as (d & f & Hd & Hb & Hf & _ & _ & _ & Hout & Hin).
  exists d, f. conjs; try assumption.
  - lra.
  - intro H. rewrite (Hout H). reflexivity.
  - intros H0 H1 Hneg. rewrite (Hin H0 H1), max0_nonpos by lra. reflexivity.
  - intros H0 H1 Hpos. rewrite (Hin H0 H1).
    destruct (Qlt_le_dec 0 (spec_kelly d p)) as [Hlt | Hle].
    + rewrite max0_pos by assumption. reflexivity.
    + rewrite max0_nonpos by assumption. lra.
Qed.

Lemma C2_kelly_fraction_formula_witness :
  exists d f,
    helpers.american_to_decimal (-110) = Ok d /\ 0 < d - 1 /\
    KellyCalculator.calculate_kelly_fraction (55 # 100) (-110) = Ok f /\
    (55 # 100 <= 0 \/ 1 <= 55 # 100 -> f == 0) /\
    (0 < 55 # 100 -> 55 # 100 < 1 -> spec_kelly d (55 # 100) < 0 -> f == 0) /\
    (0 < 55 # 100 -> 55 # 100 < 1 -> 0 <= spec_kelly d (55 # 100) ->
     f == spec_kelly d (55 # 100)).
Proof.
  apply (C2_kelly_fraction_formula (55 # 100) (-110)). simpl. lia.
Defined.



(** ** The stake *)

(** C1: for American odds of magnitude at least 100, a bankroll that is not
    negative, a modifier in (0,1] and a cap in [0,1], the recommended stake is
    returned, is not negative and is at most [bankroll * cap]. *)
Theorem C1_stake_bounds (p : Q) (odds : Z) (bankroll m c : Q) :
  (100 <= Z.abs odds)%Z -> 0 <= bankroll ->
  0 < m -> m <= 1 -> 0 <= c -> c <= 1 ->
  exists r,
    Kelly.calculate_recommended_stake p odds bankroll m c = Ok r /\
    0 <= KellyCalculator.Rec.recommended_stake r /\
    KellyCalculator.Rec.recommended_stake r <= bankroll * c.
Proof.
  intros Hodds Hb Hm0 Hm1 Hc0 Hc1.
  assert (Hnz : odds <> 0%Z) by lia.
  destruct (kelly_fraction_returns p odds Hnz)
    as (d & f & Hd & Hd1 & Hf & Hf0 & Hf1 & _).
  eexists. split.
  - unfold Kelly.calculate_recommended_stake.
    apply (recommended_stake_eq _ p odds bankroll m c d f Hd Hd1 Hf).
  - simpl.
    assert (Ha : 0 <= bankroll * c) by (apply Qmult_le_0_compat; assumption).
    assert (Hfm0 : 0 <= f * m) by (apply Qmult_le_0_compat; lra).
    assert (Hfm1 : f * m <= 1) by nra.
    split.
    + apply Qmult_le_0_compat; assumption.
    + nra.
Qed.

Lemma C1_stake_bounds_witness :
  exists r,
    Kelly.calculate_recommended_stake (55 # 100) (-110) 5000 (1 # 2) 1 = Ok r /\
    0 <= KellyCalculator.Rec.recommended_stake r /\
    KellyCalculator.Rec.recommended_stake r <= 5000 * 1.
Proof.
  apply (C1_stake_bounds (55 # 100) (-110) 5000 (1 # 2) 1);
    [simpl; lia | lra | lra | lra | lra | lra].
Defined.

Lemma implied_probability_returns (odds : Z) (d : Q) :
  helpers.american_to_decimal odds = Ok d -> 1 < d ->
  helpers.implied_probability odds = Ok (1 / d) /\ 0 < 1 / d /\ 1 / d < 1.
Proof.
  intros Hd Hb. conjs.
  - unfold helpers.implied_probability. rewrite Hd. simpl.
    apply div_Ok. lra.
  - apply Qlt_shift_div_l; lra.
  - apply Qlt_shift_div_r; lra.
Qed.

Lemma calculate_edge_returns (p : Q) (odds : Z) (d : Q) :
  helpers.american_to_decimal odds = Ok d -> 1 < d ->
  helpers.calculate_edge p odds = Ok (p - 1 / d).
Proof.
  intros Hd Hb. unfold helpers.calculate_edge.
  destruct (implied_probability_returns odds d Hd Hb) as (Hi & _).
  now rewrite Hi.
Qed.

(** C7: with the win probability, the odds and a bankroll that is not
    negative held fixed, the recommended stake does not decrease when the
    modifier grows and does not decrease when the cap grows (modifier and cap
    not negative). *)
Theorem C7_stake_monotone (p : Q) (odds : Z) (bankroll m1 m2 c1 c2 : Q) :
  odds <> 0%Z -> 0 <= bankroll ->
  0 <= m1 -> m1 <= m2 -> 0 <= c1 -> c1 <= c2 ->
  exists r r_m r_c,
    Kelly.calculate_recommended_stake p odds bankroll m1 c1 = Ok r /\
    Kelly.calculate_recommended_stake p odds bankroll m2 c1 = Ok r_m /\
    Kelly.calculate_recommended_stake p odds bankroll m1 c2 = Ok r_c /\
    KellyCalculator.Rec.recommended_stake r
      <= KellyCalculator.Rec.recommended_stake r_m /\
    KellyCalculator.Rec.recommended_stake r
      <= KellyCalculator.Rec.recommended_stake r_c.
Proof.
  intros Hnz Hb Hm1 Hm Hc1 Hc.
  destruct (kelly_fraction_returns p odds Hnz)
    as (d & f & Hd & Hd1 & Hf & Hf0 & _).
  unfold Kelly.calculate_recommended_stake.
  do 3 eexists. conjs.
  - apply (recommended_stake_eq _ p odds bankroll m1 c1 d f Hd Hd1 Hf).
  - apply (recommended_stake_eq _ p odds bankroll m2 c1 d f Hd Hd1 Hf).
  - apply (recommended_stake_eq _ p odds bankroll m1 c2 d f Hd Hd1 Hf).
  - simpl.
    assert (Ha : 0 <= bankroll * c1) by (apply Qmult_le_0_compat; assumption).
    assert (Hfm : f * m1 <= f * m2) by nra.
    nra.
  - simpl.
    assert (Hfm : 0 <= f * m1) by (apply Qmult_le_0_compat; assumption).
    assert (Ha : bankroll * c1 <= bankroll * c2) by nra.
    nra.
Qed.

Lemma C7_stake_monotone_witness :
  exists r r_m r_c,
    Kelly.calculate_recommended_stake (1 # 2) 150 1000 (1 # 4) (1 # 2) = Ok r /\
    Kelly.calculate_recommended_stake (1 # 2) 150 1000 (1 # 2) (1 # 2)
      = Ok r_m /\
    Kelly.calculate_recommended_stake (1 # 2) 150 1000 (1 # 4) 1 = Ok r_c /\
    KellyCalculator.Rec.recommended_stake r
      <= KellyCalculator.Rec.recommended_stake r_m /\
    KellyCalculator.Rec.recommended_stake r
      <= KellyCalculator.Rec.recommended_stake r_c.
Proof.
  apply (C7_stake_monotone (1 # 2) 150 1000 (1 # 4) (1 # 2) (1 # 2) 1);
    [lia | lra | lra | lra | lra | lra].
Defined.

(** C10: in the record [calculate_recommended_stake] returns, the fields
    [win_probability], [implied_probability], [edge], [kelly_fraction],
    [modified_kelly] and [stake_percentage] are the unit fractions multiplied
    by 100, while [recommended_stake], [expected_value] and
    [available_bankroll] are amounts of money. *)
Theorem C10_record_units
    (p : Q) (odds : Z) (bankroll m c : Q) :
  odds <> 0%Z ->
  exists r f ip e ev,
    Kelly.calculate_recommended_stake p odds bankroll m c = Ok r /\
    KellyCalculator.calculate_kelly_fraction p odds = Ok f /\
    helpers.implied_probability odds = Ok ip /\
    helpers.calculate_edge p odds = Ok e /\
    KellyCalculator.calculate_expected_value p odds (bankroll * c * (f * m))
      = Ok ev /\
    KellyCalculator.Rec.win_probability r == p * 100 /\
    KellyCalculator.Rec.implied_probability r == ip * 100 /\
    KellyCalculator.Rec.edge r == e * 100 /\
    KellyCalculator.Rec.kelly_fraction r == f * 100 /\
    KellyCalculator.Rec.modified_kelly r == (f * m) * 100 /\
    (0 < bankroll ->
     KellyCalculator.Rec.stake_percentage r
       == (bankroll * c * (f * m) / bankroll) * 100) /\
    (bankroll <= 0 -> KellyCalculator.Rec.stake_percentage r == 0) /\
    KellyCalculator.Rec.recommended_stake r == (bankroll * c) * (f * m) /\
    KellyCalculator.Rec.expected_value r == ev /\
    KellyCalculator.Rec.available_bankroll r == bankroll * c.
Proof.
  intro Hnz.
  destruct (kelly_fraction_returns p odds Hnz)
    as (d & f & Hd & Hd1 & Hf & _).
  destruct (implied_probability_returns odds d Hd Hd1) as (Hi & _).
  pose proof (calculate_edge_returns p odds d Hd Hd1) as He.
  unfold Kelly.calculate_recommended_stake.
  rewrite (recommended_stake_eq _ p odds bankroll m c d f Hd Hd1 Hf).
  eexists. exists f, (1 / d), (p - 1 / d). eexists.
  conjs; try reflexivity; try assumption.
  - unfold KellyCalculator.calculate_expected_value. rewrite Hd. reflexivity.
  - intro H. simpl. apply Qltb_lt in H. rewrite H. reflexivity.
  - intro H. simpl. apply Qltb_ge in H. rewrite H. reflexivity.
Qed.

Lemma C10_record_units_witness :
  exists r f ip e ev,
    Kelly.calculate_recommended_stake (55 # 100) (-110) 5000 (1 # 2) 1 = Ok r /\
    KellyCalculator.calculate_kelly_fraction (55 # 100) (-110) = Ok f /\
    helpers.implied_probability (-110) = Ok ip /\
    helpers.calculate_edge (55 # 100) (-110) = Ok e /\
    KellyCalculator.calculate_expected_value
      (55 # 100) (-110) (5000 * 1 * (f * (1 # 2))) = Ok ev /\
    KellyCalculator.Rec.win_probability r == (55 # 100) * 100 /\
    KellyCalculator.Rec.implied_probability r == ip * 100 /\
    KellyCalculator.Rec.edge r == e * 100 /\
    KellyCalculator.Rec.kelly_fraction r == f * 100 /\
    KellyCalculator.Rec.modified_kelly r == (f * (1 # 2)) * 100 /\
    (0 < 5000 ->
     KellyCalculator.Rec.stake_percentage r
       == (5000 * 1 * (f * (1 # 2)) / 5000) * 100) /\
    (5000 <= 0 -> KellyCalculator.Rec.stake_percentage r == 0) /\
    KellyCalculator.Rec.recommended_stake r == (5000 * 1) * (f * (1 # 2)) /\
    KellyCalculator.Rec.expected_value r == ev /\
    KellyCalculator.Rec.available_bankroll r == 5000 * 1.
Proof.
  apply (C10_record_units (55 # 100) (-110) 5000 (1 # 2) 1). lia.
Defined.

(** ** Degraded results for a probability outside (0,1) *)

(** C4 (amended): for in-range input, that is nonzero odds of magnitude at
    most 2^53 (the integers a binary64 number holds exactly) and a Kelly
    modifier and a cap in [0,1], [calculate_recommended_stake] returns a
    record and never raises; when the win probability is outside (0,1) the
    Kelly fraction, the modified fraction, the stake, the stake percentage and
    the expected value are 0, while the reported edge is still
    [(p - implied_probability) * 100], which is negative for [p <= 0] and
    positive for [p >= 1], never 0.  Within these ranges the binary64
    numbers of the code behave as the rationals here do: the decimal odds
    stay above 1 and no product overflows. *)
Theorem C4_degrades_to_zero_stake
    (p : Q) (odds : Z) (bankroll m c : Q) :
  odds <> 0%Z -> (Z.abs odds <= 9007199254740992)%Z ->
  0 <= m <= 1 -> 0 <= c <= 1 ->
  exists r ip,
    Kelly.calculate_recommended_stake p odds bankroll m c = Ok r /\
    helpers.implied_probability odds = Ok ip /\
    (p <= 0 \/ 1 <= p ->
     KellyCalculator.Rec.kelly_fraction r == 0 /\
     KellyCalculator.Rec.modified_kelly r == 0 /\
     KellyCalculator.Rec.recommended_stake r == 0 /\
     KellyCalculator.Rec.stake_percentage r == 0 /\
     KellyCalculator.Rec.expected_value r == 0 /\
     KellyCalculator.Rec.edge r == (p - ip) * 100 /\
     (p <= 0 -> KellyCalculator.Rec.edge r < 0) /\
     (1 <= p -> 0 < KellyCalculator.Rec.edge r)).
Proof.
  intros Hnz _ _ _.
  destruct (kelly_fraction_returns p odds Hnz)
    as (d & f & Hd & Hd1 & Hf & _ & _ & _ & Hout & _).
  destruct (implied_probability_returns odds d Hd Hd1) as (Hi & Hi0 & Hi1).
  unfold Kelly.calculate_recommended_stake.
  rewrite (recommended_stake_eq _ p odds bankroll m c d f Hd Hd1 Hf).
  eexists. exists (1 / d). conjs; try reflexivity; try assumption.
  intro Hp. rewrite (Hout Hp). simpl. conjs.
  - ring.
  - ring.
  - ring.
  - destruct (Qltb 0 bankroll); [unfold Qdiv; ring | reflexivity].
  - ring.
  - reflexivity.
  - intro H. lra.
  - intro H. lra.
Qed.

Lemma C4_degrades_to_zero_stake_witness :
  exists r ip,
    Kelly.calculate_recommended_stake (3 # 2) 100 1000 1 1 = Ok r /\
    helpers.implied_probability 100 = Ok ip /\
    (3 # 2 <= 0 \/ 1 <= 3 # 2 ->
     KellyCalculator.Rec.kelly_fraction r == 0 /\
     KellyCalculator.Rec.modified_kelly r == 0 /\
     KellyCalculator.Rec.recommended_stake r == 0 /\
     KellyCalculator.Rec.stake_percentage r == 0 /\
     KellyCalculator.Rec.expected_value r == 0 /\
     KellyCalculator.Rec.edge r == ((3 # 2) - ip) * 100 /\
     (3 # 2 <= 0 -> KellyCalculator.Rec.edge r < 0) /\
     (1 <= 3 # 2 -> 0 < KellyCalculator.Rec.edge r)).
Proof.
  apply (C4_degrades_to_zero_stake (3 # 2) 100 1000 1 1);
    [lia | simpl; lia | lra | lra].
Defined.

(** C4 as the specification states it fails: with [p = 3/2] and odds +100
    the record is returned with a Kelly fraction and a stake of 0, but its
    edge is 100 (percent), not 0. *)
Lemma C4_edge_not_zero :
  ~ (forall (p : Q) (odds : Z) (bankroll m c : Q),
       odds <> 0%Z -> p <= 0 \/ 1 <= p ->
       exists r,
         Kelly.calculate_recommended_stake p odds bankroll m c = Ok r /\
         KellyCalculator.Rec.kelly_fraction r == 0 /\
         KellyCalculator.Rec.recommended_stake r == 0 /\
         KellyCalculator.Rec.edge r == 0).
Proof.
  intro H.
  destruct (H (3 # 2) 100%Z 1000 1 1) as (r & Hr & _ & _ & He).
  - discriminate.
  - right. lra.
  - vm_compute in Hr. injection Hr as <-.
    vm_compute in He. discriminate.
Qed.

(** ** Risk classification *)

Lemma risk_label_cases (thr : config.risk_key -> Q) (sp : Q) :
  (sp < thr config.LOW * 100 /\
   KellyCalculator.assess_risk thr sp = "LOW RISK"%string) \/
  (thr config.LOW * 100 <= sp /\ sp < thr config.MEDIUM * 100 /\
   KellyCalculator.assess_risk thr sp = "MEDIUM RISK"%string) \/
  (thr config.LOW * 100 <= sp /\ thr config.MEDIUM * 100 <= sp /\
   KellyCalculator.assess_risk thr sp = "HIGH RISK"%string).
Proof.
  unfold KellyCalculator.assess_risk.
  destruct (Qltb sp (thr config.LOW * 100)) eqn:E1.
  - left. apply Qltb_lt in E1. auto.
  - apply Qltb_ge in E1.
    destruct (Qltb sp (thr config.MEDIUM * 100)) eqn:E2.
    + right; left. apply Qltb_lt in E2. auto.
    + right; right. apply Qltb_ge in E2. auto.
Qed.

(** Comparing a unit fraction with a threshold is comparing the percentage
    with a hundred times the threshold. *)
Lemma Qltb_percent (sp t : Q) : Qltb (sp / 100) t = Qltb sp (t * 100).
Proof.
  assert (E : sp / 100 == sp * (1 # 100)) by (unfold Qdiv; reflexivity).
  apply eq_true_iff_eq. rewrite !Qltb_lt, E. split; intro H; lra.
Qed.

(** The stake of the record does not depend on the risk thresholds. *)
Lemma stake_independent_of_thresholds
    (thr thr' : config.risk_key -> Q) (p : Q) (odds : Z) (bankroll m c : Q) :
  match KellyCalculator.calculate_recommended_stake thr p odds bankroll m c,
        KellyCalculator.calculate_recommended_stake thr' p odds bankroll m c
  with
  | Ok r, Ok r' =>
      KellyCalculator.Rec.recommended_stake r
        = KellyCalculator.Rec.recommended_stake r' /\
      KellyCalculator.Rec.stake_percentage r
        = KellyCalculator.Rec.stake_percentage r'
  | Raise e, Raise e' => e = e'
  | _, _ => False
  end.
Proof.
  unfold KellyCalculator.calculate_recommended_stake.
  destruct (KellyCalculator.calculate_kelly_fraction p odds) as [f | e];
    simpl; [| reflexivity].
  destruct (helpers.implied_probability odds) as [ip | e];
    simpl; [| reflexivity].
  destruct (helpers.calculate_edge p odds) as [ed | e];
    simpl; [| reflexivity].
  destruct (KellyCalculator.calculate_expected_value p odds _) as [ev | e];
    simpl; [| reflexivity].
  destruct (Qltb 0 bankroll); simpl.
  - destruct (div _ bankroll) as [x | e]; simpl; [split |]; reflexivity.
  - split; reflexivity.
Qed.

(** C6: with the default thresholds the risk label is decided by the stake
    percentage alone, in three tiers that do not overlap: LOW exactly below
    5, MEDIUM exactly from 5 to below 15, HIGH exactly from 15 upwards; the
    helper of [utils/helpers.py] gives the same label to the stake as a unit
    fraction; the label of the record is the label of its stake percentage,
    and the thresholds have no effect on the stake. *)
Theorem C6_risk_tiers (sp : Q) :
  (Kelly.assess_risk sp = "LOW RISK"%string <-> sp < 5) /\
  (Kelly.assess_risk sp = "MEDIUM RISK"%string <-> 5 <= sp /\ sp < 15) /\
  (Kelly.assess_risk sp = "HIGH RISK"%string <-> 15 <= sp) /\
  helpers.assess_risk (sp / 100) = Kelly.assess_risk sp /\
  (forall p odds bankroll m c r,
     Kelly.calculate_recommended_stake p odds bankroll m c = Ok r ->
     KellyCalculator.Rec.risk_assessment r
       = Kelly.assess_risk (KellyCalculator.Rec.stake_percentage r)) /\
  (forall thr p odds bankroll m c r,
     Kelly.calculate_recommended_stake p odds bankroll m c = Ok r ->
     exists r',
       KellyCalculator.calculate_recommended_stake thr p odds bankroll m c
         = Ok r' /\
       KellyCalculator.Rec.recommended_stake r'
         = KellyCalculator.Rec.recommended_stake r).
Proof.
  assert (HL : config.RISK_THRESHOLDS config.LOW * 100 == 5) by reflexivity.
  assert (HM : config.RISK_THRESHOLDS config.MEDIUM * 100 == 15)
    by reflexivity.
  conjs.
  - unfold Kelly.assess_risk.
    destruct (risk_label_cases config.RISK_THRESHOLDS sp)
      as [(H1 & E) | [(H1 & H2 & E) | (H1 & H2 & E)]];
      rewrite E; split; intro H; try discriminate; try reflexivity; lra.
  - unfold Kelly.assess_risk.
    destruct (risk_label_cases config.RISK_THRESHOLDS sp)
      as [(H1 & E) | [(H1 & H2 & E) | (H1 & H2 & E)]];
      rewrite E; split; intro H; try discriminate; try reflexivity;
      try lra.
  - unfold Kelly.assess_risk.
    destruct (risk_label_cases config.RISK_THRESHOLDS sp)
      as [(H1 & E) | [(H1 & H2 & E) | (H1 & H2 & E)]];
      rewrite E; split; intro H; try discriminate; try reflexivity; lra.
  - unfold Kelly.assess_risk, helpers.assess_risk,
      KellyCalculator.assess_risk.
    rewrite !Qltb_percent. reflexivity.
  - intros p odds bankroll m c r.
    unfold Kelly.calculate_recommended_stake,
      KellyCalculator.calculate_recommended_stake.
    destruct (KellyCalculator.calculate_kelly_fraction p odds) as [f | e];
      simpl; [| discriminate].
    destruct (helpers.implied_probability odds) as [ip | e];
      simpl; [| discriminate].
    destruct (helpers.calculate_edge p odds) as [ed | e];
      simpl; [| discriminate].
    destruct (KellyCalculator.calculate_expected_value p odds _) as [ev | e];
      simpl; [| discriminate].
    destruct (if Qltb 0 bankroll then _ else _) as [pct | e];
      simpl; [| discriminate].
    intro H. injection H as <-. reflexivity.
  - intros thr p odds bankroll m c r Hr.
    pose proof (stake_independent_of_thresholds
                  thr config.RISK_THRESHOLDS p odds bankroll m c) as H.
    unfold Kelly.calculate_recommended_stake in Hr. rewrite Hr in H.
    destruct (KellyCalculator.calculate_recommended_stake
                thr p odds bankroll m c) as [r' | e]; [| contradiction].
    exists r'. split; [reflexivity | apply H].
Qed.

(** ** Input validation *)

(** The reasons [validate_inputs] gives for a failure. *)
Lemma validate_inputs_cases (p : Q) (odds : Z) (bankroll : Q) :
  let v := Kelly.validate_inputs p odds bankroll in
  (~ (0 < p /\ p < 1) /\
   v = (false, "Win probability must be between 0 and 1"%string)) \/
  (0 < p /\ p < 1 /\ odds = 0%Z /\
   v = (false, "Odds cannot be zero"%string)) \/
  (0 < p /\ p < 1 /\ (0 < Z.abs odds < 100)%Z /\
   v = (false,
        "American odds must be less than -100 or greater than +100"%string)) \/
  (0 < p /\ p < 1 /\ (100 <= Z.abs odds)%Z /\ bankroll <= 0 /\
   v = (false, "Bankroll must be positive"%string)) \/
  (0 < p /\ p < 1 /\ (100 <= Z.abs odds)%Z /\ 0 < bankroll /\
   v = (true, "Valid inputs"%string)).
Proof.
  unfold Kelly.validate_inputs, KellyCalculator.validate_inputs. simpl.
  destruct (Qltb 0 p) eqn:E0; simpl.
  2:{ left. apply Qltb_ge in E0. split; [lra | reflexivity]. }
  apply Qltb_lt in E0.
  destruct (Qltb p 1) eqn:E1; simpl.
  2:{ left. apply Qltb_ge in E1. split; [lra | reflexivity]. }
  apply Qltb_lt in E1. right.
  destruct (odds =? 0)%Z eqn:Ez.
  { left. apply Z.eqb_eq in Ez. auto. }
  apply Z.eqb_neq in Ez. right.
  destruct ((-100 <? odds)%Z && (odds <? 100)%Z) eqn:Er.
  { left. apply andb_true_iff in Er. destruct Er as [Ea Eb].
    apply Z.ltb_lt in Ea, Eb. conjs; auto; lia. }
  right.
  assert (Hm : (100 <= Z.abs odds)%Z).
  { apply andb_false_iff in Er. destruct Er as [Er | Er];
      apply Z.ltb_ge in Er; lia. }
  destruct (Qle_bool bankroll 0) eqn:Eb.
  - left. apply Qle_bool_iff in Eb. auto 6.
  - right. apply Qle_bool_gt in Eb. auto 6.
Qed.

(** C8: [validate_inputs] fails exactly when [p] is outside the open interval
    (0,1), or the odds are 0, or their magnitude is strictly between 0 and
    100, or the bankroll is not positive; it succeeds on every other input;
    a failure carries one of the four messages and a success the message
    "Valid inputs". *)
Theorem C8_validate_inputs (p : Q) (odds : Z) (bankroll : Q) :
  let v := Kelly.validate_inputs p odds bankroll in
  (fst v = false <->
   (~ (0 < p /\ p < 1) \/ odds = 0%Z \/ (0 < Z.abs odds < 100)%Z \/
    bankroll <= 0)) /\
  (fst v = true <->
   (0 < p /\ p < 1 /\ (100 <= Z.abs odds)%Z /\ 0 < bankroll)) /\
  (fst v = false ->
   In (snd v)
      ["Win probability must be between 0 and 1"%string;
       "Odds cannot be zero"%string;
       "American odds must be less than -100 or greater than +100"%string;
       "Bankroll must be positive"%string]) /\
  (fst v = true -> snd v = "Valid inputs"%string).
Proof.
  intro v.
  destruct (validate_inputs_cases p odds bankroll)
    as [(H & E) | [(H0 & H1 & H & E) | [(H0 & H1 & H & E)
       | [(H0 & H1 & H & Hb & E) | (H0 & H1 & H & Hb & E)]]]];
    fold v in E; rewrite E; simpl; conjs;
    try (split; intro; try discriminate; try reflexivity);
    try (intro; discriminate); try (intro; reflexivity);
    try tauto; try (intros _; tauto).
  all: try (exfalso; intuition (try lia; try lra)).
  all: try (conjs; auto; lra).
Qed.

(** ** Round trips between American and decimal odds *)

Lemma float_le (a b : Z) : (a <= b)%Z -> float a <= float b.
Proof. intro H. unfold float. now rewrite <- Zle_Qle. Qed.



Lemma f64_near_range_spec (lo : Z) (n : nat) :
  f64_near_range lo n = true ->
  forall odds, (lo <= odds < lo + Z.of_nat n)%Z -> f64_near odds = true.
Proof.
  unfold f64_near_range. intros H odds Hr.
  rewrite forallb_forall in H.
  replace odds with (lo + Z.of_nat (Z.to_nat (odds - lo)))%Z by lia.
  apply H. apply in_seq. lia.
Qed.

(** The round trip on binary64 numbers, run on every quote of magnitude 100
    to 10000. *)
Lemma f64_near_quotes (odds : Z) :
  (100 <= Z.abs odds <= 10000)%Z -> f64_near odds = true.
Proof.
  intro Hr.
  destruct (Z_lt_le_dec odds 0) as [Hn | Hp].
  - apply (f64_near_range_spec (-10000) (Z.to_nat 9901));
      [vm_compute; reflexivity | lia].
  - apply (f64_near_range_spec 100 (Z.to_nat 9901));
      [vm_compute; reflexivity | lia].
Qed.

Lemma f64_near_spec (odds : Z) :
  f64_near odds = true ->
  exists r,
    f64_round_trip odds = Ok r /\
    (r = odds \/ r = (odds - Z.sgn odds)%Z \/
     (odds = (-100)%Z /\ r = 100%Z)).
Proof.
  intro Hnear. unfold f64_near in Hnear.
  destruct (f64_round_trip odds) as [r | e]; [| discriminate].
  exists r. split; [reflexivity |].
  apply orb_true_iff in Hnear. destruct Hnear as [Hnear | Hnear].
  - apply orb_true_iff in Hnear. destruct Hnear as [H | H];
      apply Z.eqb_eq in H; auto.
  - apply andb_true_iff in Hnear. destruct Hnear as (H1 & H2).
    apply Z.eqb_eq in H1, H2. auto.
Qed.



(** ** The simulated path *)

Section Simulation.

Variables (rng : nat -> Q) (p : Q) (odds : Z) (m d f : Q).
Hypothesis Hd : helpers.american_to_decimal odds = Ok d.
Hypothesis Hd1 : 1 < d.
Hypothesis Hf : KellyCalculator.calculate_kelly_fraction p odds = Ok f.
Hypothesis Hf0 : 0 <= f.
Hypothesis Hf1 : f < 1.
Hypothesis Hm0 : 0 < m.
Hypothesis Hm1 : m <= 1.

(** The stake of an iteration is between 0 and the current bankroll. *)
Lemma stake_within_bankroll (b : Q) :
  0 <= b -> 0 <= b * f * m /\ b * f * m <= b.
Proof.
  intro Hb.
  assert (H1 : 0 <= b * f) by (apply Qmult_le_0_compat; assumption).
  assert (H2 : b * f <= b) by nra.
  split; [apply Qmult_le_0_compat; lra | nra].
Qed.

(** One settled bet keeps the invariant, records the new bankroll at the end
    of the history and counts exactly one more bet. *)
Lemma simulate_step_invariant (bet_num : nat) (st : KellyCalculator.loop_state) :
  loop_invariant st ->
  exists st',
    KellyCalculator.simulate_step rng p odds m bet_num st = Ok st' /\
    loop_invariant st' /\
    KellyCalculator.bankroll_history st'
      = KellyCalculator.bankroll_history st
        ++ [KellyCalculator.current_bankroll st'] /\
    (KellyCalculator.wins st' + KellyCalculator.losses st'
     = KellyCalculator.wins st + KellyCalculator.losses st + 1)%Z.
Proof.
  intros (Hc & Hp & Hh & Hw & Hl).
  destruct (stake_within_bankroll _ Hc) as (Hs0 & Hs1).
  unfold KellyCalculator.simulate_step. rewrite Hf. simpl.
  set (stake := KellyCalculator.current_bankroll st * f * m) in *.
  assert (Hwin : 0 <= KellyCalculator.current_bankroll st - stake + stake * d).
  { assert (0 <= stake * d) by (apply Qmult_le_0_compat; lra). lra. }
  destruct (Qltb (rng bet_num) p); [rewrite Hd |]; simpl.
  - set (cur := KellyCalculator.current_bankroll st - stake + stake * d) in *.
    destruct (Qltb (KellyCalculator.peak_bankroll st) cur) eqn:Ep.
    + apply Qltb_lt in Ep.
      rewrite div_Ok by lra. simpl. eexists. split; [reflexivity |].
      unfold loop_invariant. simpl. conjs; try lra; try lia; try reflexivity.
      apply Forall_app. split; [assumption | repeat constructor; assumption].
    + rewrite div_Ok by lra. simpl. eexists. split; [reflexivity |].
      unfold loop_invariant. simpl. conjs; try lra; try lia; try reflexivity.
      apply Forall_app. split; [assumption | repeat constructor; assumption].
  - set (cur := KellyCalculator.current_bankroll st - stake) in *.
    assert (Hcur : 0 <= cur) by (unfold cur; lra).
    destruct (Qltb (KellyCalculator.peak_bankroll st) cur) eqn:Ep.
    + apply Qltb_lt in Ep.
      rewrite div_Ok by lra. simpl. eexists. split; [reflexivity |].
      unfold loop_invariant. simpl. conjs; try lra; try lia; try reflexivity.
      apply Forall_app. split; [assumption | repeat constructor; assumption].
    + rewrite div_Ok by lra. simpl. eexists. split; [reflexivity |].
      unfold loop_invariant. simpl. conjs; try lra; try lia; try reflexivity.
      apply Forall_app. split; [assumption | repeat constructor; assumption].
Qed.

(** The loop returns after [j <= remaining] settled bets, each recorded in
    the history; it stops early only on a bankroll of 0. *)
Lemma simulate_loop_invariant (remaining : nat) :
  forall (bet_num : nat) (st : KellyCalculator.loop_state),
    loop_invariant st ->
    exists st' j,
      KellyCalculator.simulate_loop rng p odds m remaining bet_num st
        = Ok st' /\
      loop_invariant st' /\
      (j <= remaining)%nat /\
      (j = remaining \/ KellyCalculator.current_bankroll st' == 0) /\
      List.length (KellyCalculator.bankroll_history st')
        = (List.length (KellyCalculator.bankroll_history st) + j)%nat /\
      (KellyCalculator.wins st' + KellyCalculator.losses st'
       = KellyCalculator.wins st + KellyCalculator.losses st + Z.of_nat j)%Z.
Proof.
  induction remaining as [| n IH]; intros bet_num st Hinv.
  - exists st, O. simpl. conjs; auto; lia.
  - destruct (simulate_step_invariant bet_num st Hinv)
      as (st1 & Hstep & Hinv1 & Hhist & Hcount).
    simpl. rewrite Hstep. simpl.
    destruct (Qle_bool (KellyCalculator.current_bankroll st1) 0) eqn:Ebust.
    + apply Qle_bool_iff in Ebust.
      exists st1, 1%nat. conjs; auto; try lia.
      * right. destruct Hinv1 as (Hc1 & _). lra.
      * rewrite Hhist, List.length_app. reflexivity.
    + destruct (IH (S bet_num) st1 Hinv1)
        as (st' & j & Hloop & Hinv' & Hj & Hstop & Hlen & Hcnt).
      exists st', (S j). conjs; auto; try lia.
      * destruct Hstop as [-> | Hz]; [left; reflexivity | right; exact Hz].
      * rewrite Hlen, Hhist, List.length_app. simpl. lia.
Qed.

End Simulation.

(** C3: for a starting bankroll above 0, a win probability in (0,1), odds of
    magnitude at least 100 and a modifier in (0,1], whatever the random draws
    and the target count [N], [simulate_kelly_betting] returns a path of at
    most [N] settled bets (it stops earlier only on a bankroll of 0), the
    history has one entry per settled bet after the starting bankroll, and no
    recorded bankroll is negative. *)
Theorem C3_simulation_terminates_nonnegative
    (rng : nat -> Q) (p : Q) (odds : Z) (B0 : Q) (N : Z) (m : Q) :
  0 < B0 -> 0 < p -> p < 1 -> (100 <= Z.abs odds)%Z -> 0 < m -> m <= 1 ->
  exists r,
    Kelly.simulate_kelly_betting rng p odds B0 N m = Ok r /\
    (0 <= KellyCalculator.Sim.total_bets r <= Z.max 0 N)%Z /\
    (KellyCalculator.Sim.total_bets r = Z.max 0 N \/
     KellyCalculator.Sim.final_bankroll r == 0) /\
    Z.of_nat (List.length (KellyCalculator.Sim.bankroll_history r))
      = (KellyCalculator.Sim.total_bets r + 1)%Z /\
    Forall (fun b => 0 <= b) (KellyCalculator.Sim.bankroll_history r) /\
    0 <= KellyCalculator.Sim.final_bankroll r.
Proof.
  intros HB Hp0 Hp1 Hodds Hm0 Hm1.
  assert (Hnz : odds <> 0%Z) by lia.
  destruct (kelly_fraction_returns p odds Hnz)
    as (d & f & Hd & Hd1 & Hf & Hf0 & Hf1 & _).
  set (st0 := KellyCalculator.mk_loop [B0] B0 0 0 0 B0).
  assert (Hinv0 : loop_invariant st0).
  { unfold loop_invariant, st0. simpl. conjs; try lra; try lia.
    repeat constructor. lra. }
  destruct (simulate_loop_invariant rng p odds m d f Hd Hd1 Hf Hf0 Hf1 Hm0 Hm1
              (Z.to_nat N) O st0 Hinv0)
    as (st & j & Hloop & (Hc & Hpk & Hh & Hw & Hl) & Hj & Hstop & Hlen & Hcnt).
  unfold Kelly.simulate_kelly_betting, KellyCalculator.simulate_kelly_betting.
  fold st0. rewrite Hloop. simpl.
  rewrite div_Ok by lra. simpl.
  simpl in Hlen, Hcnt.
  destruct (0 <? KellyCalculator.wins st + KellyCalculator.losses st)%Z eqn:E.
  - apply Z.ltb_lt in E.
    rewrite div_Ok.
    2:{ assert (0 < float (KellyCalculator.wins st + KellyCalculator.losses st))
          by (apply float_pos; lia). lra. }
    simpl. eexists. split; [reflexivity |]. simpl.
    conjs; try assumption; try lia.
    destruct Hstop as [-> | Hz]; [left; lia | right; exact Hz].
  - simpl. eexists. split; [reflexivity |]. simpl.
    conjs; try assumption; try lia.
    destruct Hstop as [-> | Hz]; [left; lia | right; exact Hz].
Qed.

Lemma C3_simulation_terminates_nonnegative_witness :
  exists r,
    Kelly.simulate_kelly_betting (fun _ => 99 # 100) (9 # 10) 100 1000 50 1
      = Ok r /\
    (0 <= KellyCalculator.Sim.total_bets r <= Z.max 0 50)%Z /\
    (KellyCalculator.Sim.total_bets r = Z.max 0 50 \/
     KellyCalculator.Sim.final_bankroll r == 0) /\
    Z.of_nat (List.length (KellyCalculator.Sim.bankroll_history r))
      = (KellyCalculator.Sim.total_bets r + 1)%Z /\
    Forall (fun b => 0 <= b) (KellyCalculator.Sim.bankroll_history r) /\
    0 <= KellyCalculator.Sim.final_bankroll r.
Proof.
  apply (C3_simulation_terminates_nonnegative
           (fun _ => 99 # 100) (9 # 10) 100 1000 50 1);
    [lra | lra | lra | simpl; lia | lra | lra].
Defined.

(** ** The conversions on binary64 numbers, worked cases

    Evaluated as CPython evaluates them.  The products and quotients that
    [decimal_to_american] truncates are rounded, and a result just below an
    integer loses a whole unit: the quotes +101 and -110 do not come back,
    while +110 does. *)

Example f64_round_trip_110 :
  (d <- F64.american_to_decimal 110 ;; F64.decimal_to_american d)
  = Ok 110%Z.
Proof. vm_compute. reflexivity. Qed.

Example f64_round_trip_101 :
  (d <- F64.american_to_decimal 101 ;; F64.decimal_to_american d)
  = Ok 100%Z.
Proof. vm_compute. reflexivity. Qed.

Example f64_round_trip_minus_110 :
  (d <- F64.american_to_decimal (-110) ;; F64.decimal_to_american d)
  = Ok (-109)%Z.
Proof. vm_compute. reflexivity. Qed.

Example f64_round_trip_minus_100 :
  (d <- F64.american_to_decimal (-100) ;; F64.decimal_to_american d)
  = Ok 100%Z.
Proof. vm_compute. reflexivity. Qed.

(** The other direction: the float 2.15 becomes the quote 114, whose decimal
    odds are the float 2.1399999999999997; the two floats differ by a little
    more than 0.01. *)
Example f64_decimal_round_trip_215 :
  F64.decimal_to_american (PrimFloat.div (F64.of_int 215) (F64.of_int 100))
  = Ok 114%Z /\
  exists r q qd,
    F64.american_to_decimal 114 = Ok r /\
    F64.to_Q r = Some q /\
    F64.to_Q (PrimFloat.div (F64.of_int 215) (F64.of_int 100)) = Some qd /\
    1 # 100 < Qabs (q - qd) /\
    Qabs (q - qd) <= (1 # 100) + (1 # 1000000000000).
Proof.
  split; [vm_compute; reflexivity |].
  do 3 eexists. conjs.
  - vm_compute. reflexivity.
  - vm_compute. reflexivity.
  - vm_compute. reflexivity.
  - vm_compute. reflexivity.
  - vm_compute. discriminate.
Qed.

(** ** Worked scenarios *)

(** [p = 0.55] at odds -110 with half Kelly on a bankroll of 5000: the
    Kelly fraction is 5.5 percent and the stake 137.50. *)
Example scenario_minus_110 :
  exists r,
    Kelly.calculate_recommended_stake (55 # 100) (-110) 5000 (1 # 2) 1 = Ok r /\
    KellyCalculator.Rec.kelly_fraction r == 55 # 10 /\
    KellyCalculator.Rec.recommended_stake r == 275 # 2 /\
    KellyCalculator.Rec.stake_percentage r == 275 # 100 /\
    KellyCalculator.Rec.risk_assessment r = "LOW RISK"%string.
Proof.
  eexists. split; [vm_compute; reflexivity |].
  conjs; reflexivity.
Qed.

(** [p = 0.4] at odds -200: the edge is negative and nothing is staked. *)
Example scenario_no_edge :
  exists r,
    Kelly.calculate_recommended_stake (4 # 10) (-200) 5000 1 1 = Ok r /\
    KellyCalculator.Rec.edge r < 0 /\
    KellyCalculator.Rec.recommended_stake r == 0.
Proof.
  eexists. split; [vm_compute; reflexivity |].
  conjs; reflexivity.
Qed.

(** Odds of 0 make every entry point of the stake computation raise. *)
Example zero_odds_raise (p bankroll m c : Q) :
  Kelly.calculate_recommended_stake p 0 bankroll m c
  = Raise ZeroDivisionError.
Proof.
  unfold Kelly.calculate_recommended_stake,
    KellyCalculator.calculate_recommended_stake,
    KellyCalculator.calculate_kelly_fraction.
  destruct (Qle_bool p 0 || Qle_bool 1 p); reflexivity.
Qed.

(** A path of three losing draws with [p = 0.6] at odds +100 and full Kelly:
    each loss costs a fifth of the bankroll. *)
Example scenario_three_losses :
  exists r,
    Kelly.simulate_kelly_betting (fun _ => 9 # 10) (6 # 10) 100 1000 3 1
      = Ok r /\
    KellyCalculator.Sim.total_bets r = 3%Z /\
    KellyCalculator.Sim.losses r = 3%Z /\
    Forall2 Qeq (KellyCalculator.Sim.bankroll_history r) [1000; 800; 640; 512].
Proof.
  eexists. split; [vm_compute; reflexivity |].
  conjs; try reflexivity.
  repeat constructor.
Qed.

(** * Further properties of the code *)

(** ** The odds library *)

(** The implied probability of a nonzero quote of magnitude at most 2^53
    (the integers a binary64 number holds exactly) lies strictly between 0
    and 1; a quote of +100 or more implies at most one half, a quote of -100
    or less at least one half. *)
Theorem implied_probability_bounds (odds : Z) :
  odds <> 0%Z -> (Z.abs odds <= 9007199254740992)%Z ->
  exists ip,
    helpers.implied_probability odds = Ok ip /\
    0 < ip /\ ip < 1 /\
    ((100 <= odds)%Z -> ip <= 1 # 2) /\
    ((odds <= -100)%Z -> 1 # 2 <= ip).
Proof.
  intros Hnz _.
  destruct (Z.lt_trichotomy odds 0) as [Hn | [Hz | Hp]]; [| contradiction |].
  - pose proof (american_to_decimal_neg odds Hn) as Hd.
    set (a := float (Z.abs odds)) in *.
    assert (Ha : 0 < a) by (apply float_pos; lia).
    assert (Hq : 0 < 100 / a) by (apply Qlt_shift_div_l; lra).
    destruct (implied_probability_returns odds _ Hd ltac:(lra))
      as (Hi & H0 & H1).
    eexists. conjs; try eassumption.
    + intro; lia.
    + intro Hv.
      assert (Hge : 100 <= a).
      { pose proof (float_le 100 (Z.abs odds) ltac:(lia)) as H.
        exact H. }
      assert (Hq1 : 100 / a <= 1) by (apply Qle_shift_div_r; lra).
      apply Qle_shift_div_l; lra.
  - pose proof (american_to_decimal_pos odds Hp) as Hd.
    set (a := float odds) in *.
    assert (Ha : 0 < a) by (apply float_pos; lia).
    assert (Hq : 0 < a / 100) by (apply Qlt_shift_div_l; lra).
    destruct (implied_probability_returns odds _ Hd ltac:(lra))
      as (Hi & H0 & H1).
    eexists. conjs; try eassumption.
    + intro Hv.
      assert (Hge : 100 <= a).
      { pose proof (float_le 100 odds Hv) as H. exact H. }
      assert (Hq1 : 1 <= a / 100) by (apply Qle_shift_div_l; lra).
      apply Qle_shift_div_r; lra.
    + intro; lia.
Qed.

Lemma implied_probability_bounds_witness :
  exists ip,
    helpers.implied_probability (-110) = Ok ip /\
    0 < ip /\ ip < 1 /\
    ((100 <= -110)%Z -> ip <= 1 # 2) /\
    ((-110 <= -100)%Z -> 1 # 2 <= ip).
Proof.
  apply (implied_probability_bounds (-110)); simpl; lia.
Defined.

(** The two sides of a quote are complementary: the implied probabilities
    of [+a] and of [-a] add up to 1. *)
Theorem implied_probability_complement (a : Z) :
  (0 < a)%Z ->
  exists ip im,
    helpers.implied_probability a = Ok ip /\
    helpers.implied_probability (- a) = Ok im /\
    ip + im == 1.
Proof.
  intro Ha.
  pose proof (american_to_decimal_pos a Ha) as Hp.
  pose proof (american_to_decimal_neg (- a) ltac:(lia)) as Hn.
  rewrite Z.abs_opp, Z.abs_eq in Hn by lia.
  assert (Hf : 0 < float a) by (apply float_pos; lia).
  assert (H1 : 0 < float a / 100) by (apply Qlt_shift_div_l; lra).
  assert (H2 : 0 < 100 / float a) by (apply Qlt_shift_div_l; lra).
  destruct (implied_probability_returns a _ Hp ltac:(lra)) as (Hip & _).
  destruct (implied_probability_returns (- a) _ Hn ltac:(lra)) as (Him & _).
  do 2 eexists. conjs; try eassumption.
  field. conjs; lra.
Qed.

Lemma implied_probability_complement_witness :
  exists ip im,
    helpers.implied_probability 150 = Ok ip /\
    helpers.implied_probability (- 150) = Ok im /\
    ip + im == 1.
Proof.
  apply (implied_probability_complement 150). lia.
Defined.

(** The order of the quotes of magnitude at least 100 is the order of their
    decimal odds. *)
Lemma decimal_odds_ordered (o o' : Z) :
  (100 <= Z.abs o)%Z -> (100 <= Z.abs o')%Z -> (o' <= o)%Z ->
  exists d d',
    helpers.american_to_decimal o = Ok d /\
    helpers.american_to_decimal o' = Ok d' /\
    d' <= d.
Proof.
  intros Ho Ho' Hle.
  destruct (Z_lt_le_dec o 0) as [Hn | Hp];
    destruct (Z_lt_le_dec o' 0) as [Hn' | Hp']; try lia.
  - rewrite (american_to_decimal_neg o Hn), (american_to_decimal_neg o' Hn').
    do 2 eexists. conjs; try reflexivity.
    pose proof (float_le (Z.abs o) (Z.abs o') ltac:(lia)) as H.
    pose proof (float_le 100 (Z.abs o) Ho) as H1.
    change (float 100) with 100 in H1.
    set (x := float (Z.abs o)) in *. set (y := float (Z.abs o')) in *.
    assert (100 / y <= 100 / x).
    { apply Qle_shift_div_l; [lra |].
      assert (E : 100 / y * x == 100 * x / y) by (field; lra).
      rewrite E. apply Qle_shift_div_r; [lra | nra]. }
    lra.
  - rewrite (american_to_decimal_pos o ltac:(lia)),
      (american_to_decimal_neg o' Hn').
    do 2 eexists. conjs; try reflexivity.
    pose proof (float_le 100 (Z.abs o') Ho') as H1.
    pose proof (float_le 100 o ltac:(lia)) as H2.
    change (float 100) with 100 in H1, H2.
    assert (100 / float (Z.abs o') <= 1) by (apply Qle_shift_div_r; lra).
    assert (1 <= float o / 100) by (apply Qle_shift_div_l; lra).
    lra.
  - rewrite (american_to_decimal_pos o ltac:(lia)),
      (american_to_decimal_pos o' ltac:(lia)).
    do 2 eexists. conjs; try reflexivity.
    pose proof (float_le o' o Hle) as H.
    assert (E : forall x, x / 100 == x * (1 # 100))
      by (intro; unfold Qdiv; reflexivity).
    rewrite !E. lra.
Qed.

(** Decimal odds grow with the American quote on the quotes of magnitude at
    least 100: a larger quote never pays less. *)
Theorem american_to_decimal_monotone (o o' : Z) :
  (100 <= Z.abs o)%Z -> (100 <= Z.abs o')%Z -> (o' <= o)%Z ->
  exists d d',
    helpers.american_to_decimal o = Ok d /\
    helpers.american_to_decimal o' = Ok d' /\
    d' <= d.
Proof.
  intros Ho Ho' Hle.
  destruct (Z_lt_le_dec o 0) as [Hn | Hp];
    destruct (Z_lt_le_dec o' 0) as [Hn' | Hp']; try lia.
  - rewrite (american_to_decimal_neg o Hn), (american_to_decimal_neg o' Hn').
    do 2 eexists. conjs; try reflexivity.
    pose proof (float_le (Z.abs o) (Z.abs o') ltac:(lia)) as H.
    pose proof (float_le 100 (Z.abs o) Ho) as H1.
    change (float 100) with 100 in H1.
    set (x := float (Z.abs o)) in *. set (y := float (Z.abs o')) in *.
    assert (100 / y <= 100 / x).
    { apply Qle_shift_div_l; [lra |].
      assert (E : 100 / y * x == 100 * x / y) by (field; lra).
      rewrite E. apply Qle_shift_div_r; [lra | nra]. }
    lra.
  - rewrite (american_to_decimal_pos o ltac:(lia)),
      (american_to_decimal_neg o' Hn').
    do 2 eexists. conjs; try reflexivity.
    pose proof (float_le 100 (Z.abs o') Ho') as H1.
    pose proof (float_le 100 o ltac:(lia)) as H2.
    change (float 100) with 100 in H1, H2.
    assert (100 / float (Z.abs o') <= 1) by (apply Qle_shift_div_r; lra).
    assert (1 <= float o / 100) by (apply Qle_shift_div_l; lra).
    lra.
  - rewrite (american_to_decimal_pos o ltac:(lia)),
      (american_to_decimal_pos o' ltac:(lia)).
    do 2 eexists. conjs; try reflexivity.
    pose proof (float_le o' o Hle) as H.
    assert (E : forall x, x / 100 == x * (1 # 100))
      by (intro; unfold Qdiv; reflexivity).
    rewrite !E. lra.
Qed.

Lemma american_to_decimal_monotone_witness :
  exists d d',
    helpers.american_to_decimal 150 = Ok d /\
    helpers.american_to_decimal (-110) = Ok d' /\
    d' <= d.
Proof.
  apply (american_to_decimal_monotone 150 (-110)); simpl; lia.
Defined.

(** [decimal_to_american] raises exactly on decimal odds of 1; decimal odds of
    2 or more give a quote of +100 or more, decimal odds strictly between 1
    and 2 a quote of -100 or less. *)
Theorem decimal_to_american_ranges (d : Q) :
  (helpers.decimal_to_american d = Raise ZeroDivisionError <-> d == 1) /\
  (2 <= d ->
   exists a, helpers.decimal_to_american d = Ok a /\ (100 <= a)%Z) /\
  (1 < d -> d < 2 ->
   exists a, helpers.decimal_to_american d = Ok a /\ (a <= -100)%Z).
Proof.
  conjs.
  - unfold helpers.decimal_to_american.
    destruct (Qle_bool 2 d) eqn:E2.
    + apply Qle_bool_iff in E2. split; [discriminate | intro; lra].
    + unfold div. destruct (Qeq_bool (d - 1) 0) eqn:E.
      * apply Qeq_bool_iff in E. split; [intro; lra | reflexivity].
      * simpl. split; [discriminate |].
        intro H. assert (H0 : d - 1 == 0) by lra.
        apply Qeq_bool_iff in H0. congruence.
  - intro H. unfold helpers.decimal_to_american.
    apply Qle_bool_iff in H. rewrite H. apply Qle_bool_iff in H.
    eexists. split; [reflexivity |].
    assert (Hx : 100 <= (d - 1) * 100) by lra.
    unfold int.
    assert (E : Qle_bool 0 ((d - 1) * 100) = true)
      by (apply Qle_bool_iff; lra).
    rewrite E. rewrite <- (Qfloor_Z 100). now apply Qfloor_resp_le.
  - intros H1 H2. unfold helpers.decimal_to_american.
    assert (E : Qle_bool 2 d = false) by (apply Qle_bool_gt; lra).
    rewrite E. rewrite div_Ok by lra. simpl.
    eexists. split; [reflexivity |].
    assert (Hx : - (100) / (d - 1) < - (100)).
    { apply Qlt_shift_div_r; lra. }
    unfold int.
    assert (E0 : Qle_bool 0 (- (100) / (d - 1)) = false)
      by (apply Qle_bool_gt; lra).
    rewrite E0.
    rewrite <- (Qceiling_Z (-100)). apply Qceiling_resp_le.
    change (inject_Z (-100)) with (- (100)). lra.
Qed.

(** ** The unguarded Kelly helper *)

(** The helper [kelly_criterion] has no guard on the probability: it agrees
    with [calculate_kelly_fraction] below 1, but for a probability of 1 or
    more it returns a fraction of at least 1 where the method returns 0. *)
Theorem kelly_criterion_unguarded (p : Q) (odds : Z) :
  odds <> 0%Z ->
  exists f g,
    KellyCalculator.calculate_kelly_fraction p odds = Ok f /\
    helpers.kelly_criterion p odds = Ok g /\
    (p < 1 -> g == f) /\
    (1 <= p -> f == 0 /\ 1 <= g).
Proof.
  intro Hnz.
  destruct (kelly_fraction_returns p odds Hnz)
    as (d & f & Hd & Hd1 & Hf & _ & _ & _ & Hout & Hin).
  exists f, (max0 (spec_kelly d p)). conjs.
  - assumption.
  - now apply kelly_criterion_eq.
  - intro H1.
    destruct (Qlt_le_dec 0 p) as [H0 | H0].
    + rewrite (Hin H0 H1). reflexivity.
    + rewrite (Hout (or_introl H0)).
      pose proof (spec_kelly_lt_p p d Hd1 H1) as Hlt.
      rewrite max0_nonpos by lra. reflexivity.
  - intro H1. split.
    + rewrite (Hout (or_intror H1)). reflexivity.
    + assert (Hk : 1 <= spec_kelly d p).
      { unfold spec_kelly. apply Qle_shift_div_l; [lra | nra]. }
      rewrite max0_pos by lra. exact Hk.
Qed.

Lemma kelly_criterion_unguarded_witness :
  exists f g,
    KellyCalculator.calculate_kelly_fraction (3 # 2) 100 = Ok f /\
    helpers.kelly_criterion (3 # 2) 100 = Ok g /\
    (3 # 2 < 1 -> g == f) /\
    (1 <= 3 # 2 -> f == 0 /\ 1 <= g).
Proof.
  apply (kelly_criterion_unguarded (3 # 2) 100). lia.
Defined.

(** ** The simulated path, further *)

Section SimulationStrict.

Variables (rng : nat -> Q) (p : Q) (odds : Z) (m d f B0 : Q).
Hypothesis Hd : helpers.american_to_decimal odds = Ok d.
Hypothesis Hd1 : 1 < d.
Hypothesis Hf : KellyCalculator.calculate_kelly_fraction p odds = Ok f.
Hypothesis Hf0 : 0 <= f.
Hypothesis Hf1 : f < 1.
Hypothesis Hm0 : 0 < m.
Hypothesis Hm1 : m <= 1.

Lemma growth_ge_1 : 1 <= (growth_on_win f m d).
Proof.
  unfold growth_on_win.
  assert (0 <= f * m) by (apply Qmult_le_0_compat; lra).
  assert (0 <= f * m * (d - 1)) by (apply Qmult_le_0_compat; lra).
  lra.
Qed.

Lemma shrink_positive : 0 < (shrink_on_loss f m) /\ (shrink_on_loss f m) <= 1.
Proof.
  unfold shrink_on_loss.
  assert (0 <= f * m) by (apply Qmult_le_0_compat; lra).
  assert (f * m < 1) by nra.
  split; lra.
Qed.

(** The state an iteration leaves, written out. *)
Lemma simulate_step_eq (bet_num : nat) (st : KellyCalculator.loop_state) :
  let cur := KellyCalculator.current_bankroll st in
  let stake := cur * f * m in
  let win := Qltb (rng bet_num) p in
  let cur' := if win then cur - stake + stake * d else cur - stake in
  let peak' := if Qltb (KellyCalculator.peak_bankroll st) cur' then cur'
               else KellyCalculator.peak_bankroll st in
  let dd := (peak' - cur') / peak' in
  ~ peak' == 0 ->
  KellyCalculator.simulate_step rng p odds m bet_num st
  = Ok (KellyCalculator.mk_loop
          (KellyCalculator.bankroll_history st ++ [cur'])
          cur'
          (if win then KellyCalculator.wins st + 1
           else KellyCalculator.wins st)%Z
          (if win then KellyCalculator.losses st
           else KellyCalculator.losses st + 1)%Z
          (if Qltb (KellyCalculator.max_drawdown st) dd then dd
           else KellyCalculator.max_drawdown st)
          peak').
Proof.
  intros cur stake win cur' peak' dd Hpk.
  unfold KellyCalculator.simulate_step. rewrite Hf. simpl.
  fold cur. fold stake. fold win.
  subst dd peak' cur'.
  destruct win; [rewrite Hd |]; simpl; rewrite div_Ok by exact Hpk;
    reflexivity.
Qed.

Lemma simulate_step_strict (bet_num : nat) (st : KellyCalculator.loop_state) :
  loop_invariant_strict B0 f m d st ->
  exists st',
    KellyCalculator.simulate_step rng p odds m bet_num st = Ok st' /\
    loop_invariant_strict B0 f m d st' /\
    List.length (KellyCalculator.bankroll_history st')
      = S (List.length (KellyCalculator.bankroll_history st)) /\
    KellyCalculator.wins st'
      = (KellyCalculator.wins st
         + (if Qltb (rng bet_num) p then 1 else 0))%Z /\
    (KellyCalculator.wins st' + KellyCalculator.losses st'
     = KellyCalculator.wins st + KellyCalculator.losses st + 1)%Z.
Proof.
  intros (Hc & Hpk & Hdd0 & Hdd1 & Hh & Hlast & Hw & Hl & Hform).
  pose proof growth_ge_1 as Hup. destruct shrink_positive as (Hdn0 & Hdn1).
  set (cur := KellyCalculator.current_bankroll st) in *.
  set (stake := cur * f * m).
  set (win := Qltb (rng bet_num) p).
  set (cur' := if win then cur - stake + stake * d else cur - stake).
  set (factor := if win then (growth_on_win f m d) else (shrink_on_loss f m)).
  assert (Hcur' : cur' == cur * factor).
  { unfold cur', factor, stake, growth_on_win, shrink_on_loss.
    destruct win; ring. }
  assert (Hfac : 0 < factor) by (unfold factor; destruct win; lra).
  assert (Hpos : 0 < cur').
  { rewrite Hcur'. apply Qmult_lt_0_compat; assumption. }
  set (peak' := if Qltb (KellyCalculator.peak_bankroll st) cur' then cur'
                else KellyCalculator.peak_bankroll st).
  assert (Hpk' : cur' <= peak' /\ 0 < peak').
  { unfold peak'.
    destruct (Qltb (KellyCalculator.peak_bankroll st) cur') eqn:E.
    - split; lra.
    - apply Qltb_ge in E. split; lra. }
  destruct Hpk' as (Hle' & Hpk0).
  set (dd := (peak' - cur') / peak').
  assert (Hdd : 0 <= dd /\ dd < 1).
  { unfold dd. split.
    - apply Qle_shift_div_l; lra.
    - apply Qlt_shift_div_r; lra. }
  eexists. split.
  - apply simulate_step_eq. fold cur. fold stake. fold win. fold cur'.
    fold peak'. lra.
  - fold cur stake win cur' peak' dd.
    assert (Hreach : reachable B0 f m d cur').
    { exists (if win then KellyCalculator.wins st + 1
              else KellyCalculator.wins st)%Z,
             (if win then KellyCalculator.losses st
              else KellyCalculator.losses st + 1)%Z.
      rewrite Hcur', Hform. unfold factor.
      destruct win; conjs; try lia.
      - rewrite Qpower_plus by lra. simpl. ring.
      - rewrite Qpower_plus by lra. simpl. ring. }
    unfold loop_invariant_strict. simpl. conjs.
    + assumption.
    + assumption.
    + destruct (Qltb (KellyCalculator.max_drawdown st) dd); lra.
    + destruct (Qltb (KellyCalculator.max_drawdown st) dd); lra.
    + apply Forall_app. split; [assumption |].
      constructor; [split; assumption | constructor].
    + apply last_last.
    + destruct win; lia.
    + destruct win; lia.
    + destruct Hreach as (w & l & _).
      rewrite Hcur', Hform. unfold factor.
      destruct win.
      * rewrite Qpower_plus by lra. simpl. ring.
      * rewrite Qpower_plus by lra. simpl. ring.
    + rewrite List.length_app. simpl. lia.
    + destruct win; lia.
    + destruct win; lia.
Qed.

(** The loop never leaves early: all the iterations are run. *)
Lemma simulate_loop_strict (remaining : nat) :
  forall (bet_num : nat) (st : KellyCalculator.loop_state),
    loop_invariant_strict B0 f m d st ->
    exists st',
      KellyCalculator.simulate_loop rng p odds m remaining bet_num st
        = Ok st' /\
      loop_invariant_strict B0 f m d st' /\
      List.length (KellyCalculator.bankroll_history st')
        = (List.length (KellyCalculator.bankroll_history st)
           + remaining)%nat /\
      KellyCalculator.wins st'
        = (KellyCalculator.wins st
           + count_wins rng p bet_num remaining)%Z /\
      (KellyCalculator.wins st' + KellyCalculator.losses st'
       = KellyCalculator.wins st + KellyCalculator.losses st
         + Z.of_nat remaining)%Z.
Proof.
  induction remaining as [| n IH]; intros bet_num st Hinv.
  - exists st. simpl. conjs; auto; lia.
  - destruct (simulate_step_strict bet_num st Hinv)
      as (st1 & Hstep & Hinv1 & Hlen1 & Hw1 & Hc1).
    simpl. rewrite Hstep. simpl.
    assert (E : Qle_bool (KellyCalculator.current_bankroll st1) 0 = false).
    { apply Qle_bool_gt. apply Hinv1. }
    rewrite E.
    destruct (IH (S bet_num) st1 Hinv1)
      as (st' & Hloop & Hinv' & Hlen & Hw & Hc).
    exists st'. conjs; auto; lia.
Qed.

End SimulationStrict.

(** The path [simulate_kelly_betting] returns, in terms of the state the
    loop leaves. *)
Lemma simulate_kelly_betting_eq
    (rng : nat -> Q) (p : Q) (odds : Z) (B0 : Q) (N : Z) (m : Q) :
  0 < B0 -> odds <> 0%Z -> 0 < m -> m <= 1 ->
  exists st d f,
    helpers.american_to_decimal odds = Ok d /\ 1 < d /\
    KellyCalculator.calculate_kelly_fraction p odds = Ok f /\
    0 <= f /\ f < 1 /\
    loop_invariant_strict B0 f m d st /\
    List.length (KellyCalculator.bankroll_history st) = S (Z.to_nat N) /\
    KellyCalculator.wins st = count_wins rng p 0 (Z.to_nat N) /\
    (KellyCalculator.wins st + KellyCalculator.losses st = Z.max 0 N)%Z /\
    Kelly.simulate_kelly_betting rng p odds B0 N m
    = Ok (KellyCalculator.Sim.mk
            B0
            (KellyCalculator.current_bankroll st)
            (KellyCalculator.wins st + KellyCalculator.losses st)%Z
            (KellyCalculator.wins st)
            (KellyCalculator.losses st)
            (if (0 <? KellyCalculator.wins st + KellyCalculator.losses st)%Z
             then float (KellyCalculator.wins st)
                  / float (KellyCalculator.wins st + KellyCalculator.losses st)
                  * 100
             else 0)
            ((KellyCalculator.current_bankroll st - B0) / B0 * 100)
            (KellyCalculator.max_drawdown st * 100)
            (KellyCalculator.bankroll_history st)).
Proof.
  intros HB Hnz Hm0 Hm1.
  destruct (kelly_fraction_returns p odds Hnz)
    as (d & f & Hd & Hd1 & Hf & Hf0 & Hf1 & _).
  set (st0 := KellyCalculator.mk_loop [B0] B0 0 0 0 B0).
  assert (Hinv0 : loop_invariant_strict B0 f m d st0).
  { unfold loop_invariant_strict, st0. simpl. conjs; try lra; try lia.
    - constructor; [| constructor]. split; [lra |].
      exists 0%Z, 0%Z. conjs; try lia. simpl. ring.
    - reflexivity. }
  destruct (simulate_loop_strict rng p odds m d f B0 Hd Hd1 Hf Hf0 Hf1 Hm0 Hm1
              (Z.to_nat N) O st0 Hinv0)
    as (st & Hloop & Hinv & Hlen & Hw & Hc).
  simpl in Hlen, Hw, Hc.
  exists st, d, f. conjs; try assumption; try lia.
  unfold Kelly.simulate_kelly_betting,
      KellyCalculator.simulate_kelly_betting.
  fold st0. rewrite Hloop. simpl.
  rewrite div_Ok by lra. simpl.
  destruct (0 <? KellyCalculator.wins st + KellyCalculator.losses st)%Z
    eqn:E; [| reflexivity].
  apply Z.ltb_lt in E.
  rewrite div_Ok; [reflexivity |].
  assert (0 < float (KellyCalculator.wins st + KellyCalculator.losses st))
    by (apply float_pos; lia).
  lra.
Qed.

(** With a modifier in (0,1] a simulated path is never busted: whatever the
    draws, all [N] bets are settled, every recorded bankroll is positive, and
    the wins are exactly the draws below the win probability. *)
Theorem simulation_runs_all_bets
    (rng : nat -> Q) (p : Q) (odds : Z) (B0 : Q) (N : Z) (m : Q) :
  0 < B0 -> odds <> 0%Z -> 0 < m -> m <= 1 ->
  exists r,
    Kelly.simulate_kelly_betting rng p odds B0 N m = Ok r /\
    KellyCalculator.Sim.total_bets r = Z.max 0 N /\
    List.length (KellyCalculator.Sim.bankroll_history r) = S (Z.to_nat N) /\
    Forall (fun b => 0 < b) (KellyCalculator.Sim.bankroll_history r) /\
    KellyCalculator.Sim.final_bankroll r
      = last (KellyCalculator.Sim.bankroll_history r) 0 /\
    KellyCalculator.Sim.wins r = count_wins rng p 0 (Z.to_nat N) /\
    KellyCalculator.Sim.losses r
      = (Z.max 0 N - count_wins rng p 0 (Z.to_nat N))%Z.
Proof.
  intros HB Hnz Hm0 Hm1.
  destruct (simulate_kelly_betting_eq rng p odds B0 N m HB Hnz Hm0 Hm1)
    as (st & d & f & _ & _ & _ & _ & _ & Hinv & Hlen & Hw & Hc & Hr).
  destruct Hinv as (_ & _ & _ & _ & Hh & Hlast & _).
  eexists. split; [exact Hr |]. simpl. conjs.
  - exact Hc.
  - exact Hlen.
  - eapply Forall_impl; [| exact Hh]. intros b (Hb & _). exact Hb.
  - symmetry. exact Hlast.
  - exact Hw.
  - lia.
Qed.

Lemma simulation_runs_all_bets_witness :
  exists r,
    Kelly.simulate_kelly_betting (fun _ => 99 # 100) (6 # 10) 100 1000 25 1
      = Ok r /\
    KellyCalculator.Sim.total_bets r = Z.max 0 25 /\
    List.length (KellyCalculator.Sim.bankroll_history r) = S (Z.to_nat 25) /\
    Forall (fun b => 0 < b) (KellyCalculator.Sim.bankroll_history r) /\
    KellyCalculator.Sim.final_bankroll r
      = last (KellyCalculator.Sim.bankroll_history r) 0 /\
    KellyCalculator.Sim.wins r
      = count_wins (fun _ => 99 # 100) (6 # 10) 0 (Z.to_nat 25) /\
    KellyCalculator.Sim.losses r
      = (Z.max 0 25 - count_wins (fun _ => 99 # 100) (6 # 10) 0
                                 (Z.to_nat 25))%Z.
Proof.
  apply (simulation_runs_all_bets (fun _ => 99 # 100) (6 # 10) 100 1000 25 1);
    [lra | lia | lra | lra].
Defined.

(** The final bankroll depends on the numbers of wins and losses only, not
    on their order: it is the starting bankroll times
    [1 + f m (d - 1)] per win and [1 - f m] per loss, [f] being the Kelly
    fraction and [d] the decimal odds. *)
Theorem simulation_closed_form
    (rng : nat -> Q) (p : Q) (odds : Z) (B0 : Q) (N : Z) (m : Q) :
  0 < B0 -> odds <> 0%Z -> 0 < m -> m <= 1 ->
  exists r d f,
    Kelly.simulate_kelly_betting rng p odds B0 N m = Ok r /\
    helpers.american_to_decimal odds = Ok d /\
    KellyCalculator.calculate_kelly_fraction p odds = Ok f /\
    KellyCalculator.Sim.final_bankroll r
      == B0 * (1 + f * m * (d - 1)) ^ KellyCalculator.Sim.wins r
         * (1 - f * m) ^ KellyCalculator.Sim.losses r.
Proof.
  intros HB Hnz Hm0 Hm1.
  destruct (simulate_kelly_betting_eq rng p odds B0 N m HB Hnz Hm0 Hm1)
    as (st & d & f & Hd & _ & Hf & _ & _ & Hinv & _ & _ & _ & Hr).
  destruct Hinv as (_ & _ & _ & _ & _ & _ & _ & _ & Hform).
  eexists. exists d, f. conjs; [exact Hr | exact Hd | exact Hf |].
  simpl. exact Hform.
Qed.

Lemma simulation_closed_form_witness :
  exists r d f,
    Kelly.simulate_kelly_betting (fun k => if Nat.even k then 0 else 1)
                                 (6 # 10) 100 1000 10 (1 # 2) = Ok r /\
    helpers.american_to_decimal 100 = Ok d /\
    KellyCalculator.calculate_kelly_fraction (6 # 10) 100 = Ok f /\
    KellyCalculator.Sim.final_bankroll r
      == 1000 * (1 + f * (1 # 2) * (d - 1)) ^ KellyCalculator.Sim.wins r
         * (1 - f * (1 # 2)) ^ KellyCalculator.Sim.losses r.
Proof.
  apply (simulation_closed_form (fun k => if Nat.even k then 0 else 1)
           (6 # 10) 100 1000 10 (1 # 2)); [lra | lia | lra | lra].
Defined.

(** For a positive starting bankroll, nonzero odds of magnitude at most
    2^53 and a modifier in (0,1], the largest drawdown and the win rate of a
    path are percentages in [0,100], both ends included, whatever the
    draws. *)
Theorem simulation_statistics_in_range
    (rng : nat -> Q) (p : Q) (odds : Z) (B0 : Q) (N : Z) (m : Q) :
  0 < B0 -> odds <> 0%Z -> (Z.abs odds <= 9007199254740992)%Z ->
  0 < m -> m <= 1 ->
  exists r,
    Kelly.simulate_kelly_betting rng p odds B0 N m = Ok r /\
    0 <= KellyCalculator.Sim.max_drawdown r /\
    KellyCalculator.Sim.max_drawdown r <= 100 /\
    0 <= KellyCalculator.Sim.win_rate r /\
    KellyCalculator.Sim.win_rate r <= 100.
Proof.
  intros HB Hnz _ Hm0 Hm1.
  destruct (simulate_kelly_betting_eq rng p odds B0 N m HB Hnz Hm0 Hm1)
    as (st & d & f & _ & _ & _ & _ & _ & Hinv & _ & _ & _ & Hr).
  destruct Hinv as (Hc & _ & Hdd0 & Hdd1 & _ & _ & Hw & Hl & _).
  eexists. split; [exact Hr |]. simpl.
  assert (Hwr : 0 <= (if (0 <? KellyCalculator.wins st
                               + KellyCalculator.losses st)%Z
                      then float (KellyCalculator.wins st)
                           / float (KellyCalculator.wins st
                                    + KellyCalculator.losses st) * 100
                      else 0) <= 100).
  { destruct (0 <? KellyCalculator.wins st + KellyCalculator.losses st)%Z
      eqn:E; [| lra].
    apply Z.ltb_lt in E.
    assert (Ht : 0 < float (KellyCalculator.wins st
                            + KellyCalculator.losses st))
      by (apply float_pos; lia).
    assert (Hw0 : 0 <= float (KellyCalculator.wins st))
      by (apply (float_le 0); assumption).
    assert (Hwt : float (KellyCalculator.wins st)
                  <= float (KellyCalculator.wins st
                            + KellyCalculator.losses st))
      by (apply float_le; lia).
    set (w := float (KellyCalculator.wins st)) in *.
    set (t := float (KellyCalculator.wins st + KellyCalculator.losses st))
      in *.
    assert (0 <= w / t) by (apply Qle_shift_div_l; lra).
    assert (w / t <= 1) by (apply Qle_shift_div_r; lra).
    lra. }
  conjs; lra.
Qed.

Lemma simulation_statistics_in_range_witness :
  exists r,
    Kelly.simulate_kelly_betting (fun _ => 0) (6 # 10) 100 1000 5 1 = Ok r /\
    0 <= KellyCalculator.Sim.max_drawdown r /\
    KellyCalculator.Sim.max_drawdown r <= 100 /\
    0 <= KellyCalculator.Sim.win_rate r /\
    KellyCalculator.Sim.win_rate r <= 100.
Proof.
  apply (simulation_statistics_in_range (fun _ => 0) (6 # 10) 100 1000 5 1);
    [lra | lia | simpl; lia | lra | lra].
Defined.

(** When the Kelly fraction of the bet is 0 nothing is staked, and the
    bankroll stays at its starting value through the whole path: for a
    positive starting bankroll, nonzero odds and a modifier in (0,1], every
    recorded bankroll is the starting one and the return is 0. *)
Theorem simulation_without_edge_is_flat
    (rng : nat -> Q) (p : Q) (odds : Z) (B0 : Q) (N : Z) (m f : Q) :
  0 < B0 -> odds <> 0%Z -> 0 < m -> m <= 1 ->
  KellyCalculator.calculate_kelly_fraction p odds = Ok f -> f == 0 ->
  exists r,
    Kelly.simulate_kelly_betting rng p odds B0 N m = Ok r /\
    Forall (fun b => b == B0) (KellyCalculator.Sim.bankroll_history r) /\
    KellyCalculator.Sim.final_bankroll r == B0 /\
    KellyCalculator.Sim.roi r == 0.
Proof.
  intros HB Hnz Hm0 Hm1 Hf' Hzero.
  destruct (simulate_kelly_betting_eq rng p odds B0 N m HB Hnz Hm0 Hm1)
    as (st & d & f0 & Hd & Hd1 & Hf & _ & _ & Hinv & _ & _ & _ & Hr).
  rewrite Hf' in Hf. injection Hf as <-.
  assert (Hup : growth_on_win f m d == 1)
    by (unfold growth_on_win; rewrite Hzero; ring).
  assert (Hdn : shrink_on_loss f m == 1)
    by (unfold shrink_on_loss; rewrite Hzero; ring).
  assert (Hflat : forall b, reachable B0 f m d b -> b == B0).
  { intros b (w & l & _ & _ & Hb).
    rewrite Hb, Hup, Hdn, !Qpower_1. ring. }
  destruct Hinv as (_ & _ & _ & _ & Hh & _ & Hw & Hl & Hform).
  assert (Hcur : KellyCalculator.current_bankroll st == B0).
  { apply Hflat. exists (KellyCalculator.wins st), (KellyCalculator.losses st).
    auto. }
  eexists. split; [exact Hr |]. simpl. conjs.
  - eapply Forall_impl; [| exact Hh]. intros b (_ & Hb). now apply Hflat.
  - exact Hcur.
  - rewrite Hcur. field. lra.
Qed.

Lemma simulation_without_edge_is_flat_witness :
  exists r,
    Kelly.simulate_kelly_betting (fun _ => 0) (4 # 10) (-200) 1000 5 1
      = Ok r /\
    Forall (fun b => b == 1000) (KellyCalculator.Sim.bankroll_history r) /\
    KellyCalculator.Sim.final_bankroll r == 1000 /\
    KellyCalculator.Sim.roi r == 0.
Proof.
  apply (simulation_without_edge_is_flat
           (fun _ => 0) (4 # 10) (-200) 1000 5 1 0);
    [lra | lia | lra | lra | reflexivity | reflexivity].
Defined.

(** ** [calculate_kelly_stake] of models/probability_models.py *)

Lemma min2_le_l (x y : Q) : PyMore.min2 x y <= x.
Proof.
  unfold PyMore.min2. destruct (Qltb y x) eqn:E.
  - apply Qltb_lt in E. lra.
  - lra.
Qed.

Lemma min2_le_r (x y : Q) : PyMore.min2 x y <= y.
Proof.
  unfold PyMore.min2. destruct (Qltb y x) eqn:E.
  - lra.
  - apply Qltb_ge in E. lra.
Qed.

Lemma min2_glb (x y z : Q) : z <= x -> z <= y -> z <= PyMore.min2 x y.
Proof.
  intros Hx Hy. unfold PyMore.min2. destruct (Qltb y x); assumption.
Qed.

Lemma max2_le_iff (x y z : Q) :
  (x <= PyMore.max2 x y /\ y <= PyMore.max2 x y) /\
  (x <= z -> y <= z -> PyMore.max2 x y <= z).
Proof.
  unfold PyMore.max2. destruct (Qltb x y) eqn:E.
  - apply Qltb_lt in E. conjs; try lra.
  - apply Qltb_ge in E. conjs; try lra.
Qed.

(** The two branches of [calculate_kelly_stake], once the decimal odds are
    known. *)
Lemma calculate_kelly_stake_eq
    (bankroll p : Q) (odds : Z) (k c d : Q) :
  helpers.american_to_decimal odds = Ok d -> 1 < d ->
  probability_models.calculate_kelly_stake bankroll p odds k c
  = if Qltb (1 - p) (p * (d - 1)) then
      let kelly := (p * (d - 1) - (1 - p)) / (d - 1) * k in
      let stake := PyMore.min2 (kelly * bankroll) (bankroll * c) in
      if Qeq_bool bankroll 0 then Raise ZeroDivisionError
      else Ok (probability_models.Stake.mk
                 stake (stake / bankroll * 100)
                 ((p * (d - 1) - (1 - p)) * 100)
                 ((p - 1 / d) * 100) kelly)
    else Ok (probability_models.Stake.mk 0 0 0 0 0).
Proof.
  intros Hd Hd1.
  unfold probability_models.calculate_kelly_stake.
  assert (Hd' : (if (0 <? odds)%Z
                 then r <- div (float odds) 100 ;; Ok (r + 1)
                 else r <- div 100 (float (Z.abs odds)) ;; Ok (r + 1))
                = Ok d) by exact Hd.
  rewrite Hd'. simpl.
  destruct (Qltb (1 - p) (p * (d - 1))); [| reflexivity].
  rewrite (div_Ok _ (d - 1)) by lra. simpl.
  rewrite (div_Ok 1 d) by lra. simpl.
  unfold div. destruct (Qeq_bool bankroll 0); reflexivity.
Qed.

(** For a win probability in [0,1], nonzero odds of magnitude at most 2^53,
    a positive bankroll and a Kelly multiplier and cap that are not negative,
    [calculate_kelly_stake] returns a stake between 0 and
    [bankroll * max_bankroll_pct], whose percentage is the stake over the
    bankroll. *)
Theorem kelly_stake_bounds (bankroll p : Q) (odds : Z) (k c : Q) :
  0 <= p <= 1 ->
  odds <> 0%Z -> (Z.abs odds <= 9007199254740992)%Z ->
  0 < bankroll -> 0 <= k -> 0 <= c ->
  exists r,
    probability_models.calculate_kelly_stake bankroll p odds k c = Ok r /\
    0 <= probability_models.Stake.stake r /\
    probability_models.Stake.stake r <= bankroll * c /\
    probability_models.Stake.stake_percentage r * bankroll
      == probability_models.Stake.stake r * 100.
Proof.
  intros _ Hnz _ Hb Hk Hc.
  destruct (american_to_decimal_gt1 odds Hnz) as (d & Hd & Hd1).
  rewrite (calculate_kelly_stake_eq bankroll p odds k c d Hd Hd1).
  destruct (Qltb (1 - p) (p * (d - 1))) eqn:E.
  - apply Qltb_lt in E. cbv zeta.
    assert (Eb : Qeq_bool bankroll 0 = false).
    { destruct (Qeq_bool bankroll 0) eqn:Eb; [| reflexivity].
      apply Qeq_bool_iff in Eb. lra. }
    rewrite Eb. eexists. split; [reflexivity |]. simpl.
    set (kelly := (p * (d - 1) - (1 - p)) / (d - 1) * k).
    assert (Hraw : 0 < (p * (d - 1) - (1 - p)) / (d - 1))
      by (apply Qlt_shift_div_l; lra).
    assert (Hkelly : 0 <= kelly)
      by (unfold kelly; apply Qmult_le_0_compat; lra).
    assert (Hbc : 0 <= bankroll * c) by (apply Qmult_le_0_compat; lra).
    assert (Hkb : 0 <= kelly * bankroll) by (apply Qmult_le_0_compat; lra).
    conjs.
    + apply min2_glb; assumption.
    + apply min2_le_r.
    + field. lra.
  - eexists. split; [reflexivity |]. simpl.
    assert (0 <= bankroll * c) by (apply Qmult_le_0_compat; lra).
    conjs; lra.
Qed.

Lemma kelly_stake_bounds_witness :
  exists r,
    probability_models.calculate_kelly_stake 1000 (6 # 10) 100 1 (1 # 10)
      = Ok r /\
    0 <= probability_models.Stake.stake r /\
    probability_models.Stake.stake r <= 1000 * (1 # 10) /\
    probability_models.Stake.stake_percentage r * 1000
      == probability_models.Stake.stake r * 100.
Proof.
  apply (kelly_stake_bounds 1000 (6 # 10) 100 1 (1 # 10));
    [lra | lia | simpl; lia | lra | lra | lra].
Defined.



(** The two stake functions cap differently: [calculate_kelly_stake] takes
    the smaller of the Kelly stake and [bankroll * cap], while
    [calculate_recommended_stake] multiplies the two fractions.  For a win
    probability in (0,1) and modifier and cap in [0,1] the first is never
    below the second, and they agree when the cap is 1. *)
Theorem kelly_stake_dominates_recommended_stake
    (bankroll p : Q) (odds : Z) (m c : Q) :
  0 < p -> p < 1 -> odds <> 0%Z -> 0 < bankroll ->
  0 <= m -> m <= 1 -> 0 <= c -> c <= 1 ->
  exists s r,
    probability_models.calculate_kelly_stake bankroll p odds m c = Ok s /\
    Kelly.calculate_recommended_stake p odds bankroll m c = Ok r /\
    KellyCalculator.Rec.recommended_stake r
      <= probability_models.Stake.stake s /\
    (c == 1 ->
     KellyCalculator.Rec.recommended_stake r
       == probability_models.Stake.stake s).
Proof.
  intros H0 H1 Hnz Hb Hm0 Hm1 Hc0 Hc1.
  destruct (kelly_fraction_returns p odds Hnz)
    as (d & f & Hd & Hd1 & Hf & Hf0 & Hf1 & _ & _ & Hin).
  specialize (Hin H0 H1).
  assert (Eraw : (p * (d - 1) - (1 - p)) / (d - 1) == spec_kelly d p)
    by (unfold spec_kelly; field; lra).
  assert (Hbc : 0 <= bankroll * c) by (apply Qmult_le_0_compat; lra).
  assert (Hfm0 : 0 <= f * m) by (apply Qmult_le_0_compat; assumption).
  assert (Hfm1 : f * m <= 1) by nra.
  assert (Hprod : bankroll * c * (f * m) <= bankroll * c) by nra.
  assert (Hprod' : bankroll * c * (f * m) <= f * m * bankroll).
  { assert (E : f * m * bankroll == bankroll * (f * m)) by ring.
    rewrite E.
    assert (0 <= bankroll * (f * m)) by (apply Qmult_le_0_compat; lra).
    nra. }
  unfold Kelly.calculate_recommended_stake.
  rewrite (recommended_stake_eq _ p odds bankroll m c d f Hd Hd1 Hf).
  rewrite (calculate_kelly_stake_eq bankroll p odds m c d Hd Hd1).
  set (raw := (p * (d - 1) - (1 - p)) / (d - 1)) in *.
  destruct (Qltb (1 - p) (p * (d - 1))) eqn:E.
  - apply Qltb_lt in E. cbv zeta.
    assert (Eb : Qeq_bool bankroll 0 = false).
    { destruct (Qeq_bool bankroll 0) eqn:Eb; [| reflexivity].
      apply Qeq_bool_iff in Eb. lra. }
    rewrite Eb.
    assert (Hpos : 0 < spec_kelly d p).
    { rewrite <- Eraw. unfold raw. apply Qlt_shift_div_l; lra. }
    assert (Ef : raw == f).
    { rewrite Hin, max0_pos by assumption. exact Eraw. }
    assert (Es : raw * m * bankroll == f * m * bankroll)
      by (rewrite Ef; ring).
    do 2 eexists. conjs; try reflexivity;
      cbn [KellyCalculator.Rec.recommended_stake
             probability_models.Stake.stake].
    + apply min2_glb; lra.
    + intro Hc. unfold PyMore.min2.
      destruct (Qltb (bankroll * c) (raw * m * bankroll)) eqn:Em.
      * apply Qltb_lt in Em. nra.
      * apply Qltb_ge in Em. rewrite Es.
        assert (Ec : bankroll * c * (f * m) == c * (f * m * bankroll))
          by ring.
        rewrite Ec, Hc. ring.
  - apply Qltb_ge in E.
    assert (Hneg : spec_kelly d p <= 0).
    { rewrite <- Eraw. unfold raw. apply Qle_shift_div_r; lra. }
    assert (Ef : f == 0)
      by (rewrite Hin, max0_nonpos by assumption; reflexivity).
    do 2 eexists. conjs; try reflexivity;
      cbn [KellyCalculator.Rec.recommended_stake
             probability_models.Stake.stake].
    + rewrite Ef. lra.
    + intro. rewrite Ef. ring.
Qed.

Lemma kelly_stake_dominates_recommended_stake_witness :
  exists s r,
    probability_models.calculate_kelly_stake
      1000 (6 # 10) 100 (1 # 2) (1 # 2) = Ok s /\
    Kelly.calculate_recommended_stake (6 # 10) 100 1000 (1 # 2) (1 # 2)
      = Ok r /\
    KellyCalculator.Rec.recommended_stake r
      <= probability_models.Stake.stake s /\
    (1 # 2 == 1 ->
     KellyCalculator.Rec.recommended_stake r
       == probability_models.Stake.stake s).
Proof.
  apply (kelly_stake_dominates_recommended_stake
           1000 (6 # 10) 100 (1 # 2) (1 # 2));
    try lra; lia.
Defined.

(** ** [optimize_kelly_fraction] *)

Lemma optimize_kelly_fraction_eq
    (p : Q) (odds : Z) (bankroll : Q) (tolerance : string) (d f : Q) :
  helpers.american_to_decimal odds = Ok d -> 1 < d ->
  KellyCalculator.calculate_kelly_fraction p odds = Ok f ->
  let mult := match KellyMethods.risk_multipliers tolerance with
              | Some x => x
              | None => 5 # 10
              end in
  exists r,
    Kelly.calculate_recommended_stake p odds bankroll mult 1 = Ok r /\
    KellyCalculator.Rec.recommended_stake r = bankroll * 1 * (f * mult) /\
    KellyCalculator.Rec.modified_kelly r = f * mult * 100 /\
    KellyMethods.optimize_kelly_fraction p odds bankroll tolerance
    = Ok (KellyMethods.Opt.mk (f * 100) (f * mult * 100) mult tolerance r).
Proof.
  intros Hd Hd1 Hf mult.
  unfold KellyMethods.optimize_kelly_fraction,
    Kelly.calculate_kelly_fraction, Kelly.calculate_recommended_stake.
  rewrite Hf. simpl. fold mult.
  rewrite (recommended_stake_eq _ p odds bankroll mult 1 d f Hd Hd1 Hf).
  eexists. conjs; reflexivity.
Qed.

Lemma risk_multipliers_cases (tolerance : string) :
  (tolerance = "low"%string /\
   KellyMethods.risk_multipliers tolerance = Some (25 # 100)) \/
  (tolerance = "medium"%string /\
   KellyMethods.risk_multipliers tolerance = Some (5 # 10)) \/
  (tolerance = "high"%string /\
   KellyMethods.risk_multipliers tolerance = Some (75 # 100)) \/
  (tolerance <> "low"%string /\ tolerance <> "medium"%string /\
   tolerance <> "high"%string /\
   KellyMethods.risk_multipliers tolerance = None).
Proof.
  unfold KellyMethods.risk_multipliers.
  destruct (String.eqb_spec tolerance "low") as [-> | H1]; [now left |].
  destruct (String.eqb_spec tolerance "medium") as [-> | H2];
    [right; now left |].
  destruct (String.eqb_spec tolerance "high") as [-> | H3];
    [right; right; now left |].
  right; right; right. auto.
Qed.

(** [optimize_kelly_fraction] scales the Kelly fraction by 0.25, 0.5 or 0.75;
    a tolerance it does not know is treated as "medium"; the optimized
    fraction it reports is the modified fraction of the record, and, the cap
    being 1, the stake is the bankroll times that fraction. *)
Theorem optimize_kelly_fraction_presets
    (p : Q) (odds : Z) (bankroll : Q) (tolerance : string) :
  odds <> 0%Z ->
  exists o o_medium,
    KellyMethods.optimize_kelly_fraction p odds bankroll tolerance = Ok o /\
    KellyMethods.optimize_kelly_fraction p odds bankroll "medium" = Ok o_medium /\
    (tolerance <> "low"%string -> tolerance <> "high"%string ->
     KellyMethods.Opt.multiplier o = 5 # 10 /\
     KellyMethods.Opt.results o = KellyMethods.Opt.results o_medium) /\
    (tolerance = "low"%string -> KellyMethods.Opt.multiplier o = 25 # 100) /\
    (tolerance = "high"%string -> KellyMethods.Opt.multiplier o = 75 # 100) /\
    KellyMethods.Opt.optimized_kelly o
      = KellyCalculator.Rec.modified_kelly (KellyMethods.Opt.results o) /\
    KellyCalculator.Rec.recommended_stake (KellyMethods.Opt.results o) * 100
      == bankroll * KellyMethods.Opt.optimized_kelly o.
Proof.
  intro Hnz.
  destruct (kelly_fraction_returns p odds Hnz)
    as (d & f & Hd & Hd1 & Hf & _).
  destruct (optimize_kelly_fraction_eq p odds bankroll tolerance d f Hd Hd1 Hf)
    as (r & Hr & Hs & Hmk & Ho).
  destruct (optimize_kelly_fraction_eq p odds bankroll "medium" d f Hd Hd1 Hf)
    as (r' & Hr' & _ & _ & Ho').
  rewrite Ho, Ho'. do 2 eexists. conjs; try reflexivity; simpl.
  - intros Hl Hh.
    destruct (risk_multipliers_cases tolerance)
      as [(E & _) | [(E & Hm) | [(E & _) | (_ & _ & _ & Hm)]]];
      try contradiction; rewrite Hm in *; split; try reflexivity;
      simpl in Hr'; congruence.
  - intros ->. reflexivity.
  - intros ->. reflexivity.
  - symmetry. exact Hmk.
  - rewrite Hs. ring.
Qed.

Lemma optimize_kelly_fraction_presets_witness :
  exists o o_medium,
    KellyMethods.optimize_kelly_fraction (6 # 10) 100 1000 "reckless" = Ok o /\
    KellyMethods.optimize_kelly_fraction (6 # 10) 100 1000 "medium"
      = Ok o_medium /\
    ("reckless"%string <> "low"%string -> "reckless"%string <> "high"%string ->
     KellyMethods.Opt.multiplier o = 5 # 10 /\
     KellyMethods.Opt.results o = KellyMethods.Opt.results o_medium) /\
    ("reckless"%string = "low"%string ->
     KellyMethods.Opt.multiplier o = 25 # 100) /\
    ("reckless"%string = "high"%string ->
     KellyMethods.Opt.multiplier o = 75 # 100) /\
    KellyMethods.Opt.optimized_kelly o
      = KellyCalculator.Rec.modified_kelly (KellyMethods.Opt.results o) /\
    KellyCalculator.Rec.recommended_stake (KellyMethods.Opt.results o) * 100
      == 1000 * KellyMethods.Opt.optimized_kelly o.
Proof.
  apply (optimize_kelly_fraction_presets (6 # 10) 100 1000 "reckless"). lia.
Defined.

(** The three tolerances are ordered: on a bankroll that is not negative the
    stake for "low" is at most the stake for "medium", which is at most the
    stake for "high", which is below three quarters of the bankroll. *)
Theorem optimize_kelly_fraction_ordered (p : Q) (odds : Z) (bankroll : Q) :
  odds <> 0%Z -> 0 <= bankroll ->
  exists lo me hi,
    KellyMethods.optimize_kelly_fraction p odds bankroll "low" = Ok lo /\
    KellyMethods.optimize_kelly_fraction p odds bankroll "medium" = Ok me /\
    KellyMethods.optimize_kelly_fraction p odds bankroll "high" = Ok hi /\
    KellyCalculator.Rec.recommended_stake (KellyMethods.Opt.results lo)
      <= KellyCalculator.Rec.recommended_stake (KellyMethods.Opt.results me) /\
    KellyCalculator.Rec.recommended_stake (KellyMethods.Opt.results me)
      <= KellyCalculator.Rec.recommended_stake (KellyMethods.Opt.results hi) /\
    KellyCalculator.Rec.recommended_stake (KellyMethods.Opt.results hi)
      <= (75 # 100) * bankroll.
Proof.
  intros Hnz Hb.
  destruct (kelly_fraction_returns p odds Hnz)
    as (d & f & Hd & Hd1 & Hf & Hf0 & Hf1 & _).
  destruct (optimize_kelly_fraction_eq p odds bankroll "low" d f Hd Hd1 Hf)
    as (r1 & _ & Hs1 & _ & Ho1).
  destruct (optimize_kelly_fraction_eq p odds bankroll "medium" d f Hd Hd1 Hf)
    as (r2 & _ & Hs2 & _ & Ho2).
  destruct (optimize_kelly_fraction_eq p odds bankroll "high" d f Hd Hd1 Hf)
    as (r3 & _ & Hs3 & _ & Ho3).
  rewrite Ho1, Ho2, Ho3. do 3 eexists. conjs; try reflexivity;
    cbn [KellyMethods.Opt.results]; rewrite ?Hs1, ?Hs2, ?Hs3; simpl.
  - assert (0 <= bankroll * f) by (apply Qmult_le_0_compat; assumption). nra.
  - assert (0 <= bankroll * f) by (apply Qmult_le_0_compat; assumption). nra.
  - assert (bankroll * f <= bankroll) by nra. nra.
Qed.

Lemma optimize_kelly_fraction_ordered_witness :
  exists lo me hi,
    KellyMethods.optimize_kelly_fraction (6 # 10) 100 1000 "low" = Ok lo /\
    KellyMethods.optimize_kelly_fraction (6 # 10) 100 1000 "medium" = Ok me /\
    KellyMethods.optimize_kelly_fraction (6 # 10) 100 1000 "high" = Ok hi /\
    KellyCalculator.Rec.recommended_stake (KellyMethods.Opt.results lo)
      <= KellyCalculator.Rec.recommended_stake (KellyMethods.Opt.results me) /\
    KellyCalculator.Rec.recommended_stake (KellyMethods.Opt.results me)
      <= KellyCalculator.Rec.recommended_stake (KellyMethods.Opt.results hi) /\
    KellyCalculator.Rec.recommended_stake (KellyMethods.Opt.results hi)
      <= (75 # 100) * 1000.
Proof.
  apply (optimize_kelly_fraction_ordered (6 # 10) 100 1000); [lia | lra].
Defined.

(** ** [calculate_multiple_outcomes] *)

Lemma insert_desc_perm (x : KellyMethods.outcome) (l : list KellyMethods.outcome) :
  Permutation (x :: l) (KellyMethods.insert_desc x l).
Proof.
  induction l as [| y l IH]; simpl.
  - apply Permutation_refl.
  - destruct (Qltb _ _).
    + eapply perm_trans; [apply perm_swap |].
      apply perm_skip. exact IH.
    + apply Permutation_refl.
Qed.

Lemma sort_desc_perm (l : list KellyMethods.outcome) :
  Permutation l (KellyMethods.sort_desc l).
Proof.
  induction l as [| x l IH]; simpl.
  - apply perm_nil.
  - eapply perm_trans; [apply perm_skip; exact IH |].
    apply insert_desc_perm.
Qed.

Lemma insert_desc_sorted (x : KellyMethods.outcome) (l : list KellyMethods.outcome) :
  StronglySorted
    (fun a b =>
       KellyCalculator.Rec.expected_value (KellyMethods.results b)
       <= KellyCalculator.Rec.expected_value (KellyMethods.results a)) l ->
  StronglySorted
    (fun a b =>
       KellyCalculator.Rec.expected_value (KellyMethods.results b)
       <= KellyCalculator.Rec.expected_value (KellyMethods.results a))
    (KellyMethods.insert_desc x l).
Proof.
  induction l as [| y l IH]; intro Hs; simpl.
  - constructor; constructor.
  - inversion Hs as [| ? ? Hs' Hall]; subst.
    destruct (Qltb _ _) eqn:E.
    + apply Qltb_lt in E.
      constructor; [apply IH; assumption |].
      eapply Permutation_Forall; [apply insert_desc_perm |].
      constructor; [lra | assumption].
    + apply Qltb_ge in E.
      constructor; [assumption |].
      constructor; [assumption |].
      eapply Forall_impl; [| exact Hall].
      intros a Ha. simpl in Ha. lra.
Qed.

Lemma sort_desc_sorted (l : list KellyMethods.outcome) :
  StronglySorted
    (fun a b =>
       KellyCalculator.Rec.expected_value (KellyMethods.results b)
       <= KellyCalculator.Rec.expected_value (KellyMethods.results a))
    (KellyMethods.sort_desc l).
Proof.
  induction l as [| x l IH]; simpl.
  - constructor.
  - now apply insert_desc_sorted.
Qed.

(** The loop over the scenarios: one recommendation per scenario, in order,
    each computed on the whole bankroll with full Kelly and no cap. *)
Lemma recommend_from_returns (scenarios : list KellyMethods.scenario) :
  forall (i : Z) (bankroll : Q),
    Forall (fun s => KellyMethods.odds s <> 0%Z) scenarios ->
    exists l,
      KellyMethods.recommend_from i scenarios bankroll = Ok l /\
      Forall2
        (fun s o =>
           Kelly.calculate_recommended_stake
             (KellyMethods.win_probability s) (KellyMethods.odds s)
             bankroll 1 1 = Ok (KellyMethods.results o) /\
           (forall n, KellyMethods.name s = Some n ->
                      KellyMethods.scenario_name o = n))
        scenarios l /\
      map KellyMethods.scenario_id l
        = map (fun k => (i + Z.of_nat k)%Z) (seq 0 (List.length scenarios)).
Proof.
  induction scenarios as [| s rest IH]; intros i bankroll Hall.
  - exists []. simpl. conjs; constructor.
  - inversion Hall as [| ? ? Hs Hrest]; subst.
    destruct (kelly_fraction_returns (KellyMethods.win_probability s)
                (KellyMethods.odds s) Hs)
      as (d & f & Hd & Hd1 & Hf & _).
    pose proof (recommended_stake_eq config.RISK_THRESHOLDS
                  (KellyMethods.win_probability s) (KellyMethods.odds s)
                  bankroll 1 1 d f Hd Hd1 Hf) as Hr.
    cbv zeta in Hr.
    destruct (IH (i + 1)%Z bankroll Hrest) as (tail & Ht & Hf2 & Hids).
    simpl. unfold Kelly.calculate_recommended_stake at 1.
    rewrite Hr. simpl. rewrite Ht. simpl.
    eexists. conjs; [reflexivity | |].
    + constructor; [| exact Hf2]. simpl. split.
      * exact Hr.
      * intros n Hn. rewrite Hn. reflexivity.
    + simpl. f_equal; [lia |].
      rewrite Hids. rewrite <- seq_shift, map_map.
      apply map_ext. intro k. lia.
Qed.

(** When every scenario has nonzero odds, [calculate_multiple_outcomes]
    returns one recommendation per scenario, each computed on the whole
    bankroll (nothing is deducted between scenarios), numbered from 0 in the
    order of the input, and ranked by expected value, largest first. *)
Theorem calculate_multiple_outcomes_ranked
    (scenarios : list KellyMethods.scenario) (bankroll : Q) :
  Forall (fun s => KellyMethods.odds s <> 0%Z) scenarios ->
  exists unsorted ranked,
    KellyMethods.recommend_from 0 scenarios bankroll = Ok unsorted /\
    KellyMethods.calculate_multiple_outcomes scenarios bankroll = Ok ranked /\
    Permutation unsorted ranked /\
    List.length ranked = List.length scenarios /\
    StronglySorted
      (fun a b =>
         KellyCalculator.Rec.expected_value (KellyMethods.results b)
         <= KellyCalculator.Rec.expected_value (KellyMethods.results a))
      ranked /\
    Forall2
      (fun s o =>
         Kelly.calculate_recommended_stake
           (KellyMethods.win_probability s) (KellyMethods.odds s)
           bankroll 1 1 = Ok (KellyMethods.results o) /\
         (forall n, KellyMethods.name s = Some n ->
                    KellyMethods.scenario_name o = n))
      scenarios unsorted /\
    map KellyMethods.scenario_id unsorted
      = map Z.of_nat (seq 0 (List.length scenarios)).
Proof.
  intro Hall.
  destruct (recommend_from_returns scenarios 0%Z bankroll Hall)
    as (l & Hl & Hf2 & Hids).
  exists l, (KellyMethods.sort_desc l). conjs.
  - exact Hl.
  - unfold KellyMethods.calculate_multiple_outcomes. rewrite Hl. reflexivity.
  - apply sort_desc_perm.
  - rewrite <- (Permutation_length (sort_desc_perm l)).
    symmetry. eapply Forall2_length. exact Hf2.
  - apply sort_desc_sorted.
  - exact Hf2.
  - exact Hids.
Qed.

Lemma calculate_multiple_outcomes_ranked_witness :
  exists unsorted ranked,
    KellyMethods.recommend_from 0
      [KellyMethods.mk_scenario (55 # 100) (-110) None;
       KellyMethods.mk_scenario (1 # 2) 150 (Some "underdog"%string)]
      1000 = Ok unsorted /\
    KellyMethods.calculate_multiple_outcomes
      [KellyMethods.mk_scenario (55 # 100) (-110) None;
       KellyMethods.mk_scenario (1 # 2) 150 (Some "underdog"%string)]
      1000 = Ok ranked /\
    Permutation unsorted ranked /\
    List.length ranked = 2%nat /\
    StronglySorted
      (fun a b =>
         KellyCalculator.Rec.expected_value (KellyMethods.results b)
         <= KellyCalculator.Rec.expected_value (KellyMethods.results a))
      ranked /\
    Forall2
      (fun s o =>
         Kelly.calculate_recommended_stake
           (KellyMethods.win_probability s) (KellyMethods.odds s)
           1000 1 1 = Ok (KellyMethods.results o) /\
         (forall n, KellyMethods.name s = Some n ->
                    KellyMethods.scenario_name o = n))
      [KellyMethods.mk_scenario (55 # 100) (-110) None;
       KellyMethods.mk_scenario (1 # 2) 150 (Some "underdog"%string)]
      unsorted /\
    map KellyMethods.scenario_id unsorted = map Z.of_nat (seq 0 2).
Proof.
  apply (calculate_multiple_outcomes_ranked
           [KellyMethods.mk_scenario (55 # 100) (-110) None;
            KellyMethods.mk_scenario (1 # 2) 150 (Some "underdog"%string)]
           1000).
  repeat constructor; simpl; lia.
Defined.

(** One scenario with odds of 0 makes the whole call raise: no ranking is
    returned for the other scenarios. *)
Theorem calculate_multiple_outcomes_raises
    (scenarios : list KellyMethods.scenario) (bankroll : Q) :
  Exists (fun s => KellyMethods.odds s = 0%Z) scenarios ->
  KellyMethods.calculate_multiple_outcomes scenarios bankroll
  = Raise ZeroDivisionError.
Proof.
  intro Hex.
  assert (H : forall i,
             KellyMethods.recommend_from i scenarios bankroll
             = Raise ZeroDivisionError).
  { induction Hex as [s rest Hs | s rest Hex IH]; intro i; simpl.
    - rewrite Hs, zero_odds_raise. reflexivity.
    - destruct (Z.eq_dec (KellyMethods.odds s) 0) as [Hz | Hnz].
      + rewrite Hz, zero_odds_raise. reflexivity.
      + destruct (kelly_fraction_returns (KellyMethods.win_probability s)
                    (KellyMethods.odds s) Hnz)
          as (d & f & Hd & Hd1 & Hf & _).
        unfold Kelly.calculate_recommended_stake at 1.
        rewrite (recommended_stake_eq _ _ _ bankroll 1 1 d f Hd Hd1 Hf).
        simpl. rewrite IH. reflexivity. }
  unfold KellyMethods.calculate_multiple_outcomes. rewrite H. reflexivity.
Qed.

Lemma calculate_multiple_outcomes_raises_witness :
  KellyMethods.calculate_multiple_outcomes
    [KellyMethods.mk_scenario (55 # 100) (-110) None;
     KellyMethods.mk_scenario (1 # 2) 0 None] 1000
  = Raise ZeroDivisionError.
Proof.
  apply (calculate_multiple_outcomes_raises
           [KellyMethods.mk_scenario (55 # 100) (-110) None;
            KellyMethods.mk_scenario (1 # 2) 0 None] 1000).
  apply Exists_cons_tl. apply Exists_cons_hd. reflexivity.
Defined.

(** ** [generate_summary] *)

Lemma string_append_assoc (a b c : string) :
  ((a ++ b) ++ c)%string = (a ++ (b ++ c))%string.
Proof.
  induction a as [| ch a IH]; simpl; [reflexivity | now rewrite IH].
Qed.

Lemma prefix_append (a b : string) : String.prefix a (a ++ b) = true.
Proof.
  apply String.prefix_correct.
  induction a as [| ch a IH]; simpl.
  - destruct b; reflexivity.
  - now rewrite IH.
Qed.

Lemma generate_summary_cases
    (fmt1 fmt2 : Q -> string) (r : KellyCalculator.Rec.t)
    (bet_type : string) (team1 team2 : option string) :
  (KellyCalculator.Rec.edge r <= 0 /\
   KellyMethods.generate_summary fmt1 fmt2 r bet_type team1 team2
   = ("NO BET RECOMMENDED: No positive expected value detected. Model shows "
        ++ fmt1 (KellyCalculator.Rec.edge r) ++ "% edge.")%string) \/
  (0 < KellyCalculator.Rec.edge r /\
   exists rest,
     KellyMethods.generate_summary fmt1 fmt2 r bet_type team1 team2
     = ("Recommended bet: "
          ++ fmt1 (KellyCalculator.Rec.stake_percentage r)
          ++ "% of bankroll ($"
          ++ fmt2 (KellyCalculator.Rec.recommended_stake r)
          ++ ") on " ++ bet_type ++ rest)%string).
Proof.
  unfold KellyMethods.generate_summary.
  destruct (Qle_bool (KellyCalculator.Rec.edge r) 0) eqn:E.
  - left. apply Qle_bool_iff in E. split; [assumption | reflexivity].
  - right. apply Qle_bool_gt in E. split; [assumption |].
    destruct (String.eqb _ "HIGH RISK");
      [| destruct (String.eqb _ "MEDIUM RISK")];
      destruct (PyMore.truthy team1 && PyMore.truthy team2);
      try destruct team1; try destruct team2;
      rewrite !string_append_assoc;
      eexists; reflexivity.
Qed.

(** Outside (0,1) the stake is 0, and a probability of 1 or more has a
    positive edge. *)
Lemma stake_outside_unit_interval
    (p : Q) (odds : Z) (bankroll m c : Q) :
  odds <> 0%Z ->
  exists r,
    Kelly.calculate_recommended_stake p odds bankroll m c = Ok r /\
    (p <= 0 \/ 1 <= p -> KellyCalculator.Rec.recommended_stake r == 0) /\
    (1 <= p -> 0 < KellyCalculator.Rec.edge r).
Proof.
  intro Hnz.
  destruct (kelly_fraction_returns p odds Hnz)
    as (d & f & Hd & Hd1 & Hf & _ & _ & _ & Hout & _).
  destruct (implied_probability_returns odds d Hd Hd1) as (_ & Hi0 & Hi1).
  unfold Kelly.calculate_recommended_stake.
  rewrite (recommended_stake_eq _ p odds bankroll m c d f Hd Hd1 Hf).
  eexists. split; [reflexivity |]. simpl. split.
  - intro Hp. rewrite (Hout Hp). ring.
  - intro Hp. lra.
Qed.

(** A win probability of 1 or more is not rejected by the summary: for a
    nonzero quote of magnitude at most 2^53 (the integers a binary64 number
    holds exactly) and a Kelly modifier and a cap in [0,1], the record has a
    positive edge and a stake of 0, and the summary opens with
    "Recommended bet: " for that stake of 0. *)
Theorem summary_recommends_empty_bet_on_certain_win
    (fmt1 fmt2 : Q -> string) (p : Q) (odds : Z) (bankroll m c : Q)
    (bet_type : string) (team1 team2 : option string) :
  1 <= p -> odds <> 0%Z -> (Z.abs odds <= 9007199254740992)%Z ->
  0 <= m <= 1 -> 0 <= c <= 1 ->
  exists r,
    Kelly.calculate_recommended_stake p odds bankroll m c = Ok r /\
    KellyCalculator.Rec.recommended_stake r == 0 /\
    String.prefix "Recommended bet: "
      (KellyMethods.generate_summary fmt1 fmt2 r bet_type team1 team2) = true.
Proof.
  intros Hp Hnz _ _ _.
  destruct (stake_outside_unit_interval p odds bankroll m c Hnz)
    as (r & Hr & Hs & He).
  exists r. conjs; try assumption.
  - apply Hs. now right.
  - destruct (generate_summary_cases fmt1 fmt2 r bet_type team1 team2)
      as [(Hle & _) | (_ & rest & Hsum)].
    + specialize (He Hp). lra.
    + rewrite Hsum. apply prefix_append.
Qed.

Lemma summary_recommends_empty_bet_on_certain_win_witness :
  exists r,
    Kelly.calculate_recommended_stake 1 150 1000 1 1 = Ok r /\
    KellyCalculator.Rec.recommended_stake r == 0 /\
    String.prefix "Recommended bet: "
      (KellyMethods.generate_summary (fun _ => "x"%string)
         (fun _ => "y"%string) r "moneyline" None None) = true.
Proof.
  apply (summary_recommends_empty_bet_on_certain_win
           (fun _ => "x"%string) (fun _ => "y"%string)
           1 150 1000 1 1 "moneyline" None None);
    [lra | lia | simpl; lia | lra | lra].
Defined.

(** ** The session state *)

(** [update_bankroll] never leaves a negative bankroll and touches nothing
    else; "set" stores the amount floored at 0; a subtraction of more than
    the bankroll leaves exactly 0; an operation it does not know leaves a
    bankroll that is not negative as it is. *)
Theorem update_bankroll_floor
    {payload time : Type} (amount : Q) (operation : string)
    (st : session.session_state payload time) :
  let st' := session.update_bankroll amount operation st in
  0 <= session.bankroll st' /\
  session.initial_bankroll st' = session.initial_bankroll st /\
  session.bet_history st' = session.bet_history st /\
  session.total_bets st' = session.total_bets st /\
  (operation = "add"%string ->
   session.bankroll st' = max0 (session.bankroll st + amount)) /\
  (operation = "subtract"%string ->
   session.bankroll st' = max0 (session.bankroll st - amount) /\
   (session.bankroll st <= amount -> session.bankroll st' = 0)) /\
  (operation = "set"%string -> session.bankroll st' = max0 amount) /\
  (operation <> "add"%string -> operation <> "subtract"%string ->
   operation <> "set"%string -> 0 < session.bankroll st ->
   session.bankroll st' = session.bankroll st).
Proof.
  intro st'. subst st'. unfold session.update_bankroll.
  destruct (String.eqb_spec operation "add") as [-> | Ha].
  { simpl. conjs; try reflexivity; try discriminate; try congruence.
    apply max0_nonneg. }
  destruct (String.eqb_spec operation "subtract") as [-> | Hs].
  { simpl. conjs; try reflexivity; try discriminate; try congruence.
    - apply max0_nonneg.
    - intros _. split; [reflexivity |]. intro H. apply max0_nonpos. lra. }
  destruct (String.eqb_spec operation "set") as [-> | He].
  { simpl. conjs; try reflexivity; try discriminate; try congruence.
    apply max0_nonneg. }
  simpl. conjs; try reflexivity; try contradiction.
  - apply max0_nonneg.
  - intros _ _ _ H. now apply max0_pos.
Qed.

(** The floor at 0 loses money for good: after a subtraction of more than
    the bankroll, adding the same amount back leaves [max(0, amount)], and
    for a bankroll that is not negative that is the amount, which is more
    than the bankroll was. *)
Theorem update_bankroll_overdraw_not_restored
    {payload time : Type} (amount : Q)
    (st : session.session_state payload time) :
  session.bankroll st < amount ->
  let st' :=
    session.update_bankroll amount "add"
      (session.update_bankroll amount "subtract" st) in
  session.bankroll st' == max0 amount /\
  (0 <= session.bankroll st ->
   session.bankroll st' == amount /\
   session.bankroll st < session.bankroll st').
Proof.
  intros Hlt st'. subst st'. unfold session.update_bankroll. simpl.
  rewrite (max0_nonpos (session.bankroll st - amount)) by lra.
  assert (E : 0 + amount == amount) by ring.
  split.
  - destruct (Qlt_le_dec 0 amount) as [H | H].
    + rewrite !max0_pos by lra. exact E.
    + rewrite !max0_nonpos by lra. reflexivity.
  - intro Hb. rewrite max0_pos by lra. split; lra.
Qed.

Lemma update_bankroll_overdraw_not_restored_witness :
  session.bankroll
    (session.update_bankroll 200 "add"
       (session.update_bankroll 200 "subtract"
          (session.mk_state (payload:=unit) (time:=unit) 50 50 [] 0 0 0)))
  == max0 200 /\
  (0 <= 50 ->
   session.bankroll
     (session.update_bankroll 200 "add"
        (session.update_bankroll 200 "subtract"
           (session.mk_state (payload:=unit) (time:=unit) 50 50 [] 0 0 0)))
   == 200 /\
   50 < session.bankroll
          (session.update_bankroll 200 "add"
             (session.update_bankroll 200 "subtract"
                (session.mk_state (payload:=unit) (time:=unit)
                   50 50 [] 0 0 0)))).
Proof.
  apply (update_bankroll_overdraw_not_restored 200
           (session.mk_state (payload:=unit) (time:=unit) 50 50 [] 0 0 0)).
  simpl. lra.
Defined.

(** Recording bets numbers them: starting from an empty history with a
    count of 0, after any sequence of recordings the bets are in the order
    they were recorded, their identifiers are 1, 2, ..., n, the count is n,
    and the bankroll is untouched. *)
Theorem record_bet_numbers_bets
    {payload time : Type} (bets : list (time * payload))
    (st : session.session_state payload time) :
  session.bet_history st = [] -> session.total_bets st = 0%Z ->
  let st' := fold_left (fun s b => session.record_bet (fst b) (snd b) s)
                       bets st in
  map session.bet_data (session.bet_history st') = map snd bets /\
  map session.timestamp (session.bet_history st') = map fst bets /\
  map session.bet_id (session.bet_history st')
    = map (fun k => Z.of_nat (S k)) (seq 0 (List.length bets)) /\
  session.total_bets st' = Z.of_nat (List.length bets) /\
  session.bankroll st' = session.bankroll st.
Proof.
  intros Hh Ht.
  assert (Hgen : forall (l : list (time * payload)) s,
             let s' := fold_left
                         (fun s b => session.record_bet (fst b) (snd b) s)
                         l s in
             map session.bet_data (session.bet_history s')
               = map session.bet_data (session.bet_history s) ++ map snd l /\
             map session.timestamp (session.bet_history s')
               = map session.timestamp (session.bet_history s) ++ map fst l /\
             map session.bet_id (session.bet_history s')
               = map session.bet_id (session.bet_history s)
                 ++ map (fun k => Z.of_nat (S k))
                        (seq (List.length (session.bet_history s))
                             (List.length l)) /\
             session.total_bets s'
               = (session.total_bets s + Z.of_nat (List.length l))%Z /\
             session.bankroll s' = session.bankroll s).
  { induction l as [| b l IH]; intro s; cbv zeta.
    - simpl. rewrite !app_nil_r. conjs; try reflexivity. lia.
    - simpl fold_left.
      set (s1 := session.record_bet (fst b) (snd b) s).
      assert (E1 : session.bet_history s1
                   = session.bet_history s
                     ++ [session.mk_bet (snd b) (fst b)
                           (Z.of_nat (List.length (session.bet_history s))
                            + 1)])
        by reflexivity.
      assert (E2 : session.total_bets s1 = (session.total_bets s + 1)%Z)
        by reflexivity.
      assert (E3 : session.bankroll s1 = session.bankroll s) by reflexivity.
      destruct (IH s1) as (H1 & H2 & H3 & H4 & H5).
      rewrite H1, H2, H3, H4, H5, E1, E2, E3.
      rewrite !map_app, List.length_app. simpl.
      rewrite <- !app_assoc. simpl.
      conjs; try reflexivity.
      + do 2 f_equal; [lia |].
        rewrite Nat.add_1_r. reflexivity.
      + lia. }
  intro st'. subst st'.
  destruct (Hgen bets st) as (H1 & H2 & H3 & H4 & H5).
  rewrite H1, H2, H3, H4, H5, Hh, Ht. simpl. conjs; reflexivity.
Qed.

Lemma record_bet_numbers_bets_witness :
  let st := session.mk_state (payload:=string) (time:=Z) 5000 5000 [] 0 0 0 in
  let bets := [(10%Z, "first"%string); (20%Z, "second"%string)] in
  let st' := fold_left (fun s b => session.record_bet (fst b) (snd b) s)
                       bets st in
  map session.bet_data (session.bet_history st') = map snd bets /\
  map session.timestamp (session.bet_history st') = map fst bets /\
  map session.bet_id (session.bet_history st')
    = map (fun k => Z.of_nat (S k)) (seq 0 (List.length bets)) /\
  session.total_bets st' = Z.of_nat (List.length bets) /\
  session.bankroll st' = session.bankroll st.
Proof.
  apply (record_bet_numbers_bets
           [(10%Z, "first"%string); (20%Z, "second"%string)]
           (session.mk_state (payload:=string) (time:=Z) 5000 5000 [] 0 0 0));
    reflexivity.
Defined.

(** [calculate_roi] never raises: it is 0 for an initial bankroll of 0, and
    otherwise the profit or loss as a percentage of the initial bankroll, so
    for a positive initial bankroll it has the sign of the profit and is at
    least -100 when the bankroll is not negative. *)
Theorem calculate_roi_returns
    {payload time : Type} (st : session.session_state payload time) :
  exists roi,
    session.calculate_roi st = Ok roi /\
    (session.initial_bankroll st == 0 -> roi = 0) /\
    (~ session.initial_bankroll st == 0 ->
     roi * session.initial_bankroll st
       == session.get_profit_loss st * 100) /\
    (0 < session.initial_bankroll st ->
     (0 < roi <-> 0 < session.get_profit_loss st) /\
     (0 <= session.bankroll st -> - (100) <= roi)).
Proof.
  unfold session.calculate_roi, session.get_profit_loss.
  set (b := session.bankroll st). set (i := session.initial_bankroll st).
  destruct (Qeq_bool i 0) eqn:E.
  - apply Qeq_bool_iff in E. exists 0. conjs; try reflexivity.
    + intro H. contradiction.
    + intro H. lra.
  - assert (Hi : ~ i == 0).
    { intro H. apply Qeq_bool_iff in H. congruence. }
    rewrite div_Ok by assumption. simpl.
    eexists. conjs; try reflexivity.
    + intro H. contradiction.
    + intros _. field. assumption.
    + intro Hpos.
      assert (Es : (b - i) / i * 100 == (b - i) * (100 / i)) by (field; lra).
      assert (Hk : 0 < 100 / i) by (apply Qlt_shift_div_l; lra).
      rewrite Es. split.
      * split; intro H; nra.
      * intro Hb.
        assert (Em : - (100) == (0 - i) * (100 / i)) by (field; lra).
        rewrite Em. nra.
Qed.

(** ** The cache *)

(** A value that was cached is returned, with the cache left as it is, as
    long as the moment of the lookup is not after the expiration; after the
    expiration the lookup returns nothing and deletes the entry, so that no
    later lookup finds it, whatever its moment. *)
Theorem cache_lookup_after_store
    {A : Type} (now later : Z) (key : string) (value : A) (duration : Z)
    (c : cache.session_cache A) :
  let stored := cache.cache_data now key value duration c in
  ((later <= now + duration * 3600000000)%Z ->
   cache.get_cached_data later key stored = (Some value, stored)) /\
  ((now + duration * 3600000000 < later)%Z ->
   fst (cache.get_cached_data later key stored) = None /\
   forall t,
     fst (cache.get_cached_data
            t key (snd (cache.get_cached_data later key stored)))
     = None).
Proof.
  intro stored. subst stored.
  unfold cache.cache_data, cache.get_cached_data, cache.hours.
  rewrite String.eqb_refl. simpl. split.
  - intro H.
    assert (E : (now + duration * 3600000000 <? later)%Z = false)
      by (apply Z.ltb_ge; lia).
    rewrite E. reflexivity.
  - intro H.
    assert (E : (now + duration * 3600000000 <? later)%Z = true)
      by (apply Z.ltb_lt; lia).
    rewrite E. simpl. split; [reflexivity |].
    intro t. rewrite String.eqb_refl. reflexivity.
Qed.

Lemma cache_lookup_after_store_witness :
  let stored := cache.cache_data 0 "soccer_odds" 7%Z 1 None in
  ((3600000000 <= 0 + 1 * 3600000000)%Z ->
   cache.get_cached_data 3600000000 "soccer_odds" stored
   = (Some 7%Z, stored)) /\
  ((0 + 1 * 3600000000 < 3600000000)%Z ->
   fst (cache.get_cached_data 3600000000 "soccer_odds" stored) = None /\
   forall t,
     fst (cache.get_cached_data
            t "soccer_odds"
            (snd (cache.get_cached_data 3600000000 "soccer_odds" stored)))
     = None).
Proof.
  exact (cache_lookup_after_store 0 3600000000 "soccer_odds" 7%Z 1 None).
Defined.

(** Storing under one key and looking up or expiring another key do not
    interfere: a lookup of another key answers as it did before the store,
    and a lookup never changes what another key holds. *)
Theorem cache_keys_independent
    {A : Type} (now t : Z) (key other : string) (value : A) (duration : Z)
    (c : cache.session_cache A) :
  other <> key ->
  fst (cache.get_cached_data t other (cache.cache_data now key value duration c))
  = fst (cache.get_cached_data t other c) /\
  forall t',
    fst (cache.get_cached_data
           t' key (snd (cache.get_cached_data t other c)))
    = fst (cache.get_cached_data t' key c).
Proof.
  intro Hne.
  assert (E : String.eqb other key = false) by (now apply String.eqb_neq).
  assert (E' : String.eqb key other = false)
    by (apply String.eqb_neq; congruence).
  split.
  - unfold cache.cache_data, cache.get_cached_data.
    destruct c as [d |]; cbv beta; rewrite E.
    + destruct (d other) as [it |]; [| reflexivity].
      destruct (cache.expiration it <? t)%Z; reflexivity.
    + reflexivity.
  - intro t'. unfold cache.get_cached_data.
    destruct c as [d |]; [| reflexivity].
    destruct (d other) as [it |]; [| reflexivity].
    destruct (cache.expiration it <? t)%Z; [| reflexivity].
    cbn [snd]. cbv beta. rewrite E'.
    destruct (d key) as [it' |]; [| reflexivity].
    destruct (cache.expiration it' <? t')%Z; reflexivity.
Qed.

Lemma cache_keys_independent_witness :
  fst (cache.get_cached_data 5 "soccer_odds_time"
         (cache.cache_data 0 "soccer_odds" 7%Z 1 None))
  = fst (cache.get_cached_data 5 "soccer_odds_time" None) /\
  forall t',
    fst (cache.get_cached_data
           t' "soccer_odds"
           (snd (cache.get_cached_data 5 "soccer_odds_time"
                   (None : cache.session_cache Z))))
    = fst (cache.get_cached_data t' "soccer_odds" None).
Proof.
  apply (cache_keys_independent 0 5 "soccer_odds" "soccer_odds_time" 7%Z 1
           None).
  discriminate.
Defined.

(** ** Text and input validation *)

Lemma substring_0_length (s : string) (n : nat) :
  String.length (substring 0 n s) = Nat.min n (String.length s).
Proof.
  revert n. induction s as [| ch s IH]; intro n.
  - destruct n; reflexivity.
  - destruct n; simpl; [reflexivity | now rewrite IH].
Qed.

Lemma substring_0_prefix (s : string) (n : nat) :
  String.prefix (substring 0 n s) s = true.
Proof.
  apply String.prefix_correct. rewrite substring_0_length.
  revert n. induction s as [| ch s IH]; intro n.
  - destruct n; reflexivity.
  - destruct n; simpl; [reflexivity |]. now rewrite IH.
Qed.

Lemma string_length_append (a b : string) :
  String.length (a ++ b) = (String.length a + String.length b)%nat.
Proof.
  induction a as [| ch a IH]; simpl; [reflexivity | now rewrite IH].
Qed.

(** The length of what [truncate_text] returns. *)
Lemma truncate_text_length (text : string) (max_length : Z) :
  Z.of_nat (String.length (inputs.truncate_text text max_length))
  = if (Z.of_nat (String.length text) <=? max_length)%Z
    then Z.of_nat (String.length text)
    else if (max_length - 3 <? 0)%Z
         then (Z.max 0 (Z.of_nat (String.length text) + (max_length - 3)) + 3)%Z
         else (max_length - 3 + 3)%Z.
Proof.
  unfold inputs.truncate_text.
  destruct (Z.of_nat (String.length text) <=? max_length)%Z eqn:E;
    [reflexivity |].
  apply Z.leb_gt in E.
  rewrite string_length_append. unfold PyMore.slice_to.
  rewrite substring_0_length. simpl String.length.
  destruct (max_length - 3 <? 0)%Z eqn:En.
  - apply Z.ltb_lt in En. lia.
  - apply Z.ltb_ge in En. lia.
Qed.

(** With a limit of at least 3, [truncate_text] returns a text of at most
    that length, ending in "..." when it was cut, and truncating twice is
    truncating once.  With a limit below 3 a text longer than the limit comes
    back longer than the limit. *)
Theorem truncate_text_bound (text : string) (max_length : Z) :
  ((3 <= max_length)%Z ->
   (Z.of_nat (String.length (inputs.truncate_text text max_length))
    <= max_length)%Z /\
   inputs.truncate_text (inputs.truncate_text text max_length) max_length
   = inputs.truncate_text text max_length) /\
  ((Z.of_nat (String.length text) <= max_length)%Z ->
   inputs.truncate_text text max_length = text) /\
  ((max_length < Z.of_nat (String.length text))%Z ->
   exists kept,
     inputs.truncate_text text max_length = (kept ++ "...")%string /\
     String.prefix kept text = true) /\
  ((max_length < 3)%Z -> (max_length < Z.of_nat (String.length text))%Z ->
   (max_length
    < Z.of_nat (String.length (inputs.truncate_text text max_length)))%Z).
Proof.
  pose proof (truncate_text_length text max_length) as Hlen.
  conjs.
  - intro H3.
    assert (Hle : (Z.of_nat (String.length
                               (inputs.truncate_text text max_length))
                   <= max_length)%Z).
    { rewrite Hlen.
      destruct (Z.of_nat (String.length text) <=? max_length)%Z eqn:E.
      - now apply Z.leb_le.
      - assert (En : (max_length - 3 <? 0)%Z = false)
          by (apply Z.ltb_ge; lia).
        rewrite En. lia. }
    split; [exact Hle |].
    unfold inputs.truncate_text at 1.
    apply Z.leb_le in Hle. rewrite Hle. reflexivity.
  - intro H. unfold inputs.truncate_text.
    apply Z.leb_le in H. rewrite H. reflexivity.
  - intro H. unfold inputs.truncate_text.
    assert (E : (Z.of_nat (String.length text) <=? max_length)%Z = false)
      by (apply Z.leb_gt; lia).
    rewrite E. eexists. split; [reflexivity |].
    unfold PyMore.slice_to. apply substring_0_prefix.
  - intros H3 H. rewrite Hlen.
    assert (E : (Z.of_nat (String.length text) <=? max_length)%Z = false)
      by (apply Z.leb_gt; lia).
    assert (En : (max_length - 3 <? 0)%Z = true) by (apply Z.ltb_lt; lia).
    rewrite E, En. lia.
Qed.

(** [validate_odds_input] accepts an input exactly when it converts to an
    integer of magnitude at least 100, and then returns that integer; a
    [ValueError] of the conversion becomes a rejection, any other exception
    is passed on.  An accepted quote passes the odds checks of
    [validate_inputs]. *)
Theorem validate_odds_input_accepts
    {input : Type} (int_of : input -> result Z) (odds_input : input) :
  (forall odds,
     inputs.validate_odds_input input int_of odds_input = Ok (true, inl odds)
     <-> int_of odds_input = Ok odds /\ (100 <= Z.abs odds)%Z) /\
  (int_of odds_input = Raise ValueError ->
   inputs.validate_odds_input input int_of odds_input
   = Ok (false, inr "Please enter a valid integer"%string)) /\
  (forall e, e <> ValueError -> int_of odds_input = Raise e ->
             inputs.validate_odds_input input int_of odds_input = Raise e) /\
  (forall odds p bankroll,
     inputs.validate_odds_input input int_of odds_input = Ok (true, inl odds) ->
     0 < p -> p < 1 -> 0 < bankroll ->
     Kelly.validate_inputs p odds bankroll = (true, "Valid inputs"%string)).
Proof.
  assert (Hacc : forall odds,
             inputs.validate_odds_input input int_of odds_input
             = Ok (true, inl odds)
             <-> int_of odds_input = Ok odds /\ (100 <= Z.abs odds)%Z).
  { intro odds. unfold inputs.validate_odds_input.
    destruct (int_of odds_input) as [z | e].
    - destruct (z =? 0)%Z eqn:Ez.
      + apply Z.eqb_eq in Ez. split; [discriminate |].
        intros (H & Hm). injection H as <-. lia.
      + apply Z.eqb_neq in Ez. simpl. rewrite andb_true_r.
        destruct ((-100 <? z)%Z && (z <? 100)%Z) eqn:Er.
        * apply andb_true_iff in Er. destruct Er as (Ea & Eb).
          apply Z.ltb_lt in Ea, Eb. split; [discriminate |].
          intros (H & Hm). injection H as <-. lia.
        * apply andb_false_iff in Er. split.
          -- intro H. injection H as <-. split; [reflexivity |].
             destruct Er as [Er | Er]; apply Z.ltb_ge in Er; lia.
          -- intros (H & _). injection H as <-. reflexivity.
    - destruct e; split; try discriminate; intros (H & _); discriminate. }
  conjs.
  - exact Hacc.
  - intro H. unfold inputs.validate_odds_input. rewrite H. reflexivity.
  - intros e He H. unfold inputs.validate_odds_input. rewrite H.
    destruct e; try reflexivity. contradiction.
  - intros odds p bankroll H Hp0 Hp1 Hb.
    apply Hacc in H. destruct H as (_ & Hm).
    destruct (validate_inputs_cases p odds bankroll)
      as [(Hc & _) | [(_ & _ & Hc & _) | [(_ & _ & Hc & _)
         | [(_ & _ & _ & Hc & _) | (_ & _ & _ & _ & E)]]]];
      [ exfalso; apply Hc; split; assumption
      | exfalso; lia | exfalso; lia | exfalso; lra | exact E ].
Qed.

(** ** The best quote of a match *)

Lemma market_eqb_eq (a b : odds_data.market) :
  odds_data.market_eqb a b = true <-> a = b.
Proof.
  destruct a, b; simpl; split; intro H; try reflexivity; discriminate.
Qed.

Lemma set_market_same (m : odds_data.market) (v : odds_data.best)
    (b : odds_data.best_odds) :
  odds_data.set_market m v b m = v.
Proof.
  unfold odds_data.set_market.
  assert (E : odds_data.market_eqb m m = true) by (now apply market_eqb_eq).
  now rewrite E.
Qed.

Lemma set_market_other (m m' : odds_data.market) (v : odds_data.best)
    (b : odds_data.best_odds) :
  m' <> m -> odds_data.set_market m v b m' = b m'.
Proof.
  intro H. unfold odds_data.set_market.
  destruct (odds_data.market_eqb m' m) eqn:E; [| reflexivity].
  apply market_eqb_eq in E. contradiction.
Qed.

(** Considering a market leaves the other markets alone. *)
Lemma consider_other
    (name : string) (q : odds_data.quotes) (m m' : odds_data.market)
    (b : odds_data.best_odds) :
  m' <> m -> odds_data.consider name q m b m' = b m'.
Proof.
  intro H. unfold odds_data.consider.
  destruct (q m) as [c |]; [| reflexivity].
  destruct (odds_data.odds (b m)) as [bv |].
  - match goal with |- (if ?x then _ else _) m' = _ => destruct x end;
      [now apply set_market_other | reflexivity].
  - now apply set_market_other.
Qed.

(** The entry of a market after it was considered: the old entry, or the
    quote of the bookmaker. *)
Lemma consider_same
    (name : string) (q : odds_data.quotes) (m : odds_data.market)
    (b : odds_data.best_odds) :
  match q m with
  | None => odds_data.consider name q m b m = b m
  | Some c =>
      match odds_data.odds (b m) with
      | None =>
          odds_data.consider name q m b m
          = odds_data.mk_best (Some c) (Some name)
      | Some bv =>
          (odds_data.consider name q m b m
           = odds_data.mk_best (Some c) (Some name) /\
           (c <> 0%Z -> bv <> 0%Z -> (bv < c)%Z)) \/
          (odds_data.consider name q m b m = b m /\
           (c <> 0%Z -> bv <> 0%Z -> (c <= bv)%Z))
      end
  end.
Proof.
  unfold odds_data.consider.
  destruct (q m) as [c |]; [| reflexivity].
  destruct (odds_data.odds (b m)) as [bv |]; [| apply set_market_same].
  destruct (0 <? c)%Z eqn:Ec; destruct (0 <? bv)%Z eqn:Eb;
    destruct (c <? 0)%Z eqn:Ec'; destruct (bv <? 0)%Z eqn:Eb';
    destruct (bv <? c)%Z eqn:Elt; simpl;
    try apply Z.ltb_lt in Ec; try apply Z.ltb_ge in Ec;
    try apply Z.ltb_lt in Eb; try apply Z.ltb_ge in Eb;
    try apply Z.ltb_lt in Ec'; try apply Z.ltb_ge in Ec';
    try apply Z.ltb_lt in Eb'; try apply Z.ltb_ge in Eb';
    try apply Z.ltb_lt in Elt; try apply Z.ltb_ge in Elt;
    try (exfalso; lia);
    first [ left; split; [apply set_market_same | intros; lia]
          | right; split; [reflexivity | intros; lia] ].
Qed.

(** One bookmaker, as the body of the outer loop treats it, market by
    market. *)
Lemma consider_all_markets
    (name : string) (q : odds_data.quotes) (b : odds_data.best_odds)
    (m : odds_data.market) :
  odds_data.consider name q odds_data.away_win
    (odds_data.consider name q odds_data.draw
       (odds_data.consider name q odds_data.home_win b)) m
  = odds_data.consider name q m b m.
Proof.
  assert (Hext : forall b1 b2 m0,
             b1 m0 = b2 m0 ->
             odds_data.consider name q m0 b1 m0
             = odds_data.consider name q m0 b2 m0).
  { intros b1 b2 m0 H. unfold odds_data.consider. rewrite H.
    destruct (q m0); [| exact H].
    destruct (odds_data.odds (b2 m0)).
    - match goal with
      | |- (if ?x then _ else _) m0 = _ => destruct x
      end; [now rewrite !set_market_same | exact H].
    - now rewrite !set_market_same. }
  destruct m.
  - rewrite consider_other by discriminate.
    rewrite consider_other by discriminate. reflexivity.
  - rewrite consider_other by discriminate.
    apply Hext. apply consider_other. discriminate.
  - apply Hext.
    rewrite consider_other by discriminate.
    apply consider_other. discriminate.
Qed.

Lemma quoted_app (seen : list (string * odds_data.quotes))
    (name : string) (q : odds_data.quotes) (m : odds_data.market)
    (name' : string) (o : Z) :
  quoted (seen ++ [(name, q)]) m name' o
  <-> quoted seen m name' o \/ (name' = name /\ q m = Some o).
Proof.
  unfold quoted. split.
  - intros (q' & Hin & Hq). apply in_app_or in Hin.
    destruct Hin as [Hin | [Heq | []]].
    + left. exists q'. auto.
    + injection Heq as <- <-. right. auto.
  - intros [(q' & Hin & Hq) | (-> & Hq)].
    + exists q'. split; [apply in_or_app; now left | assumption].
    + exists q. split; [apply in_or_app; right; now left | assumption].
Qed.

Lemma best_invariant_step
    (seen : list (string * odds_data.quotes)) (b : odds_data.best_odds)
    (name : string) (q : odds_data.quotes) :
  best_invariant seen b ->
  best_invariant (seen ++ [(name, q)])
    (odds_data.consider name q odds_data.away_win
       (odds_data.consider name q odds_data.draw
          (odds_data.consider name q odds_data.home_win b))).
Proof.
  intros Hinv m. rewrite consider_all_markets.
  specialize (Hinv m). pose proof (consider_same name q m b) as Hc.
  destruct (q m) as [c |] eqn:Eq.
  - destruct (odds_data.odds (b m)) as [bv |] eqn:Eb.
    + destruct Hinv as ((n0 & Hn0 & Hq0) & Hmax).
      destruct Hc as [(Hc & Hlt) | (Hc & Hle)]; rewrite Hc; simpl.
      * split.
        -- exists name. split; [reflexivity |].
           apply quoted_app. right. auto.
        -- intros Hnz name' o' Hq'.
           assert (Hc0 : c <> 0%Z).
           { apply (Hnz name). apply quoted_app. right. auto. }
           assert (Hb0 : bv <> 0%Z).
           { apply (Hnz n0). apply quoted_app. now left. }
           apply quoted_app in Hq'. destruct Hq' as [Hq' | (_ & Hq')].
           ++ assert (o' <= bv)%Z.
              { apply (Hmax (fun n' x Hx =>
                               Hnz n' x (proj2 (quoted_app _ _ _ _ _ _)
                                               (or_introl Hx)))
                            name' o' Hq'). }
              specialize (Hlt Hc0 Hb0). lia.
           ++ rewrite Eq in Hq'. injection Hq' as <-. lia.
      * rewrite Eb. split.
        -- exists n0. split; [assumption |]. apply quoted_app. now left.
        -- intros Hnz name' o' Hq'.
           assert (Hc0 : c <> 0%Z).
           { apply (Hnz name). apply quoted_app. right. auto. }
           assert (Hb0 : bv <> 0%Z).
           { apply (Hnz n0). apply quoted_app. now left. }
           apply quoted_app in Hq'. destruct Hq' as [Hq' | (_ & Hq')].
           ++ apply (Hmax (fun n' x Hx =>
                             Hnz n' x (proj2 (quoted_app _ _ _ _ _ _)
                                             (or_introl Hx)))
                          name' o' Hq').
           ++ rewrite Eq in Hq'. injection Hq' as <-. auto.
    + destruct Hinv as (Hnone & Hnoq). rewrite Hc. simpl. split.
      * exists name. split; [reflexivity |]. apply quoted_app. right. auto.
      * intros _ name' o' Hq'.
        apply quoted_app in Hq'. destruct Hq' as [Hq' | (_ & Hq')].
        -- exfalso. exact (Hnoq name' o' Hq').
        -- rewrite Eq in Hq'. injection Hq' as <-. lia.
  - rewrite Hc.
    destruct (odds_data.odds (b m)) as [bv |] eqn:Eb.
    + destruct Hinv as ((n0 & Hn0 & Hq0) & Hmax). split.
      * exists n0. split; [assumption |]. apply quoted_app. now left.
      * intros Hnz name' o' Hq'.
        apply quoted_app in Hq'. destruct Hq' as [Hq' | (_ & Hq')].
        -- apply (Hmax (fun n' x Hx =>
                          Hnz n' x (proj2 (quoted_app _ _ _ _ _ _)
                                          (or_introl Hx)))
                       name' o' Hq').
        -- rewrite Eq in Hq'. discriminate.
    + destruct Hinv as (Hnone & Hnoq). split; [assumption |].
      intros name' o' Hq'.
      apply quoted_app in Hq'. destruct Hq' as [Hq' | (_ & Hq')].
      * exact (Hnoq name' o' Hq').
      * rewrite Eq in Hq'. discriminate.
Qed.

Lemma best_invariant_fold (l : list (string * odds_data.quotes)) :
  forall seen b,
    best_invariant seen b ->
    best_invariant (seen ++ l)
      (fold_left
         (fun b entry =>
            let '(name, quoted) := entry in
            odds_data.consider name quoted odds_data.away_win
              (odds_data.consider name quoted odds_data.draw
                 (odds_data.consider name quoted odds_data.home_win b)))
         l b).
Proof.
  induction l as [| [name q] l IH]; intros seen b Hinv.
  - rewrite app_nil_r. exact Hinv.
  - simpl fold_left.
    replace (seen ++ (name, q) :: l) with ((seen ++ [(name, q)]) ++ l)
      by (rewrite <- app_assoc; reflexivity).
    apply IH. now apply best_invariant_step.
Qed.

(** [get_best_odds] leaves a market empty exactly when no bookmaker quotes
    it; otherwise it names a bookmaker of the match together with the quote
    of that bookmaker; and when every quote of the market has a magnitude of
    at least 100, the quote it picks is the largest one and pays at least as
    much, in decimal odds, as any other quote of the market. *)
Theorem get_best_odds_picks_best
    (bookmakers : list (string * odds_data.quotes)) (m : odds_data.market) :
  let best := odds_data.get_best_odds bookmakers m in
  (odds_data.odds best = None ->
   odds_data.bookmaker best = None /\
   forall name o, ~ quoted bookmakers m name o) /\
  (forall o,
     odds_data.odds best = Some o ->
     exists name,
       odds_data.bookmaker best = Some name /\ quoted bookmakers m name o) /\
  (forall o,
     odds_data.odds best = Some o ->
     (forall name' o', quoted bookmakers m name' o' -> (100 <= Z.abs o')%Z) ->
     forall name' o',
       quoted bookmakers m name' o' ->
       (o' <= o)%Z /\
       exists d d',
         helpers.american_to_decimal o = Ok d /\
         helpers.american_to_decimal o' = Ok d' /\
         d' <= d).
Proof.
  intro best. subst best.
  assert (Hinit : best_invariant [] (fun _ => odds_data.mk_best None None)).
  { intro m0. simpl. split; [reflexivity |].
    intros name o (q & [] & _). }
  pose proof (best_invariant_fold bookmakers [] _ Hinit m) as Hinv.
  simpl app in Hinv. unfold odds_data.get_best_odds.
  destruct (odds_data.odds _) as [o |] eqn:Eo.
  - destruct Hinv as (Hex & Hmax). conjs.
    + discriminate.
    + intros o0 H. injection H as <-. exact Hex.
    + intros o0 H Hvalid name' o' Hq. injection H as <-.
      assert (Hle : (o' <= o)%Z).
      { apply (Hmax (fun n x Hx => ltac:(specialize (Hvalid n x Hx); lia))
                    name' o' Hq). }
      split; [exact Hle |].
      destruct Hex as (n0 & _ & Hq0).
      apply decimal_odds_ordered; auto.
      * apply (Hvalid n0 o Hq0).
      * apply (Hvalid name' o' Hq).
  - destruct Hinv as (Hnone & Hnoq). conjs.
    + intros _. split; assumption.
    + discriminate.
    + discriminate.
Qed.

(** A quote of 0 blocks the market: when the first bookmaker that is read
    quotes 0 on a market, that 0 is the answer for the market, whatever the
    later bookmakers quote. *)
Theorem get_best_odds_zero_blocks
    (name : string) (q : odds_data.quotes)
    (rest : list (string * odds_data.quotes)) (m : odds_data.market) :
  q m = Some 0%Z ->
  odds_data.get_best_odds ((name, q) :: rest) m
  = odds_data.mk_best (Some 0%Z) (Some name).
Proof.
  intro Hq. unfold odds_data.get_best_odds. simpl fold_left.
  assert (Hkeep : forall l b,
             b m = odds_data.mk_best (Some 0%Z) (Some name) ->
             fold_left
               (fun b entry =>
                  let '(name, quoted) := entry in
                  odds_data.consider name quoted odds_data.away_win
                    (odds_data.consider name quoted odds_data.draw
                       (odds_data.consider name quoted odds_data.home_win b)))
               l b m
             = odds_data.mk_best (Some 0%Z) (Some name)).
  { induction l as [| [n' q'] l IH]; intros b Hb; [exact Hb |].
    simpl fold_left. apply IH. rewrite consider_all_markets.
    unfold odds_data.consider. rewrite Hb. simpl.
    destruct (q' m) as [c |]; [| exact Hb].
    rewrite !andb_false_r. exact Hb. }
  apply Hkeep. rewrite consider_all_markets.
  unfold odds_data.consider. rewrite Hq. simpl. apply set_market_same.
Qed.

Lemma get_best_odds_zero_blocks_witness :
  odds_data.get_best_odds
    [("A"%string, fun _ => Some 0%Z); ("B"%string, fun _ => Some 250%Z)]
    odds_data.home_win
  = odds_data.mk_best (Some 0%Z) (Some "A"%string).
Proof.
  apply (get_best_odds_zero_blocks "A" (fun _ => Some 0%Z)
           [("B"%string, fun _ => Some 250%Z)] odds_data.home_win).
  reflexivity.
Defined.

(** ** The adjustments of a probability in the F1 simulation *)

(** Whatever the random adjustment, the probability adjusted for rain lies
    in [0.1, 0.9].  The adjustment for the market caps the markets "Podium"
    and "Points Finish" at 0.9 without lowering a probability in [0, 0.9],
    and leaves every other market as it is, above 0.9 too. *)
Theorem adjusted_probabilities_in_range
    (uniform : Q -> Q -> Q) (base weather_impact : Q) (market_type : string) :
  (1 # 10 <= f1_simulation.adjust_rain_probability uniform base weather_impact
   /\ f1_simulation.adjust_rain_probability uniform base weather_impact
      <= 9 # 10) /\
  (market_type = "Podium"%string \/ market_type = "Points Finish"%string ->
   f1_simulation.adjust_market_probability base market_type <= 9 # 10 /\
   (0 <= base -> base <= 9 # 10 ->
    base <= f1_simulation.adjust_market_probability base market_type)) /\
  (market_type <> "Podium"%string -> market_type <> "Points Finish"%string ->
   f1_simulation.adjust_market_probability base market_type = base).
Proof.
  conjs.
  - unfold f1_simulation.adjust_rain_probability.
    apply (proj1 (proj1 (max2_le_iff _ _ 1))).
  - unfold f1_simulation.adjust_rain_probability.
    apply (proj2 (max2_le_iff _ _ _)); [lra | apply min2_le_l].
  - intros [-> | ->]; simpl; split; try apply min2_le_l;
      intros H0 H1; apply min2_glb; lra.
  - intros H1 H2. unfold f1_simulation.adjust_market_probability.
    destruct (String.eqb_spec market_type "Podium"); [contradiction |].
    destruct (String.eqb_spec market_type "Points Finish");
      [contradiction | reflexivity].
Qed.

(** ** The round trip of a quote on binary64 numbers *)

(** Evaluated on binary64 numbers as the interpreter does, the round trip
    of every quote of magnitude 100 to 10000 returns the quote itself or the
    quote one unit nearer to zero, except -100, which returns +100: the
    truncation of [decimal_to_american] loses at most one unit there. *)
Theorem f64_round_trip_within_one (odds : Z) :
  (100 <= Z.abs odds <= 10000)%Z ->
  exists r,
    f64_round_trip odds = Ok r /\
    (r = odds \/ r = (odds - Z.sgn odds)%Z \/
     (odds = (-100)%Z /\ r = 100%Z)).
Proof.
  intro Hr. apply f64_near_spec. now apply f64_near_quotes.
Qed.

Lemma f64_round_trip_within_one_witness :
  exists r,
    f64_round_trip (-110) = Ok r /\
    (r = (-110)%Z \/ r = (-110 - Z.sgn (-110))%Z \/
     ((-110)%Z = (-100)%Z /\ r = 100%Z)).
Proof.
  apply (f64_round_trip_within_one (-110)). simpl. lia.
Defined.
